(** * Alert synchronisation and risk classification (AlertProvider)

    A shallow embedding of the alert state container of the hospital
    dashboard front end:

    - [src/frontend/src/components/Header.js], lines 279-438: the
      [AlertProvider] component ([fetchAlerts], [acknowledgeAlert],
      [dismissAlert], [refreshAlerts], the polling [useEffect] and the
      derived views [activeAlerts], [criticalAlerts], [highRiskAlerts],
      [acknowledgedAlerts], [stats]);
    - [src/unnamed/part_003], lines 71-91: the tier filters of the Alerts
      page ([filteredAndSortedAlerts]).

    JavaScript values are modelled as decoded JSON, objects as finite maps
    from property names to values.  The asynchronous functions are modelled
    as an event-driven machine: a function that awaits a network call is
    suspended as a task and resumed by the event that delivers the reply.
    Every state setter and every network call the code issues is recorded
    in a trace, in program order. *)

From Stdlib Require Import QArith.
From stdpp Require Import gmap strings list fin_maps pretty.

Set Warnings "-register-all".

(** ** JavaScript values *)

(** What [JSON.parse] can produce, plus [undefined] (the value of a missing
    property or of an empty response body).  Numbers are finite doubles,
    carried by their exact rational value. *)
Inductive value : Type :=
| VUndefined
| VNull
| VBool (b : bool)
| VNum (q : Q)
| VStr (s : string)
| VArr (l : list value)
| VObj (m : gmap string value).

Abbreviation obj := (gmap string value).

(** Primitive values: the arguments [===] is applied to in this code (string
    literals and alert ids).  An array or an object is never strictly equal
    to a primitive. *)
Inductive prim : Type :=
| PUndefined
| PNull
| PBool (b : bool)
| PNum (q : Q)
| PStr (s : string).

(** ToBoolean. *)
Definition truthy (v : value) : bool :=
  match v with
  | VUndefined | VNull => false
  | VBool b => b
  | VNum q => negb (Qeq_bool q 0)
  | VStr s => negb (String.eqb s EmptyString)
  | VArr _ | VObj _ => true
  end.

(** [a || b] and [a && b]: they return one of their operands, not a boolean.
    The right operands in this code have no effect and cannot throw once the
    left one has been evaluated, so evaluating them eagerly is harmless. *)
Definition js_or (a b : value) : value := if truthy a then a else b.
Definition js_and (a b : value) : value := if truthy a then b else a.

(** [a ?? b]: not used by the code; it is what the specification writes. *)
Definition js_nullish (a b : value) : value :=
  match a with
  | VUndefined | VNull => b
  | _ => a
  end.

(** [v === p] for a primitive [p]. *)
Definition strict_eq (v : value) (p : prim) : bool :=
  match v, p with
  | VUndefined, PUndefined => true
  | VNull, PNull => true
  | VBool a, PBool b => Bool.eqb a b
  | VNum a, PNum b => Qeq_bool a b
  | VStr a, PStr b => String.eqb a b
  | _, _ => false
  end.

(** [o.k] on an object: [undefined] when the property is missing. *)
Definition field (o : obj) (k : string) : value := default VUndefined (o !! k).

(** [v.k] for a value that is neither [null] nor [undefined] (on those the
    access throws, see [nullish]).  The code only reads the properties
    alerts, alert_id, id, is_acknowledged, acknowledged, severity and
    risk_score, none of which exists on a number, boolean, string or array,
    nor on [Object.prototype]. *)
Definition get (v : value) (k : string) : value :=
  match v with
  | VObj m => field m k
  | _ => VUndefined
  end.

Definition nullish (v : value) : bool :=
  match v with
  | VUndefined | VNull => true
  | _ => false
  end.

(** [Array.isArray(v)] and the elements of an array. *)
Definition isArray (v : value) : bool :=
  match v with
  | VArr _ => true
  | _ => false
  end.

Definition elements (v : value) : list value :=
  match v with
  | VArr l => l
  | _ => []
  end.

(** The own enumerable properties copied by [{...v}]: those of an object;
    the indices of an array or of a string; nothing for the other values
    ([null] and [undefined] included: spreading them does not throw). *)
Definition indexed {A} (f : A → value) (l : list A) : obj :=
  list_to_map (imap (λ i x, (pretty i, f x)) l).

Definition spread (v : value) : obj :=
  match v with
  | VObj m => m
  | VArr l => indexed id l
  | VStr s => indexed (λ c, VStr (String c EmptyString)) (String.list_ascii_of_string s)
  | _ => ∅
  end.

(** ** Normalisation (Header.js, lines 304-318) *)

(** The callback of [.map] at lines 307-311 and, verbatim, 313-317:
    [{...alert, id: alert.alert_id || alert.id,
      is_acknowledged: alert.is_acknowledged || alert.acknowledged || false}].
    [None] stands for the [TypeError] raised by [alert.alert_id] when the
    element is [null] or [undefined]. *)
Definition normalize_alert (alert : value) : option obj :=
  if nullish alert then None
  else
    Some (<["is_acknowledged" :=
              js_or (js_or (get alert "is_acknowledged") (get alert "acknowledged"))
                    (VBool false)]>
          (<["id" := js_or (get alert "alert_id") (get alert "id")]>
           (spread alert))).

(** Lines 305-318, with [data] standing for [response.data]:
    the [alerts] array of the payload if there is one, else the payload
    itself if it is an array, else the empty array.  [None]: the callback
    threw.  When [response.data] is falsy the code does not evaluate
    [response.data.alerts]; here it evaluates to [undefined] and is
    ignored. *)
Definition normalize (data : value) : option (list obj) :=
  if truthy data && truthy (get data "alerts") && isArray (get data "alerts")
  then mapM normalize_alert (elements (get data "alerts"))
  else if isArray data
  then mapM normalize_alert (elements data)
  else Some [].

(** The two payload shapes the specification names: an object with an
    [alerts] array, or a bare array. *)
Definition payload_array (data : value) : option (list value) :=
  match data with
  | VObj m =>
      match m !! "alerts" with
      | Some (VArr l) => Some l
      | _ => None
      end
  | VArr l => Some l
  | _ => None
  end.

(** An id is empty when it is [undefined], [null] or the empty string. *)
Definition id_nonempty (v : value) : bool :=
  match v with
  | VUndefined | VNull => false
  | VStr s => negb (String.eqb s EmptyString)
  | _ => true
  end.

(** Field resolution as the specification words it, with [??]. *)
Definition spec_id (raw : value) : value :=
  js_nullish (get raw "alert_id") (get raw "id").

Definition spec_isAcknowledged (raw : value) : value :=
  js_nullish (js_nullish (get raw "is_acknowledged") (get raw "acknowledged"))
             (VBool false).

(** ** Numbers and comparisons *)

(** The doubles denoted by the literals of the code and of the scenario of
    the specification, by their exact values: [0.8] is
    3602879701896397 / 2^52, and so on. *)
Definition lit_0_8 : Q := 3602879701896397 # 4503599627370496.
Definition lit_0_6 : Q := 5404319552844595 # 9007199254740992.
Definition lit_0_4 : Q := 3602879701896397 # 9007199254740992.
Definition lit_0_85 : Q := 7656119366529843 # 9007199254740992.
Definition lit_0_9 : Q := 8106479329266893 # 9007199254740992.

(** ToNumber on a non-empty string, an array or an object (the parsing of
    numeric strings and ToPrimitive) belongs to the JavaScript engine: it is
    a parameter of the model.  [None] is [NaN]. *)
Class Runtime := ToNumber_ext : value → option Q.

(** ToNumber. *)
Definition to_number `{Runtime} (v : value) : option Q :=
  match v with
  | VUndefined => None
  | VNull => Some 0%Q
  | VBool b => Some (if b then 1%Q else 0%Q)
  | VNum q => Some q
  | VStr s => if String.eqb s EmptyString then Some 0%Q else ToNumber_ext v
  | VArr _ | VObj _ => ToNumber_ext v
  end.

(** [v >= c] and [v < c] for a number literal [c]: false on [NaN]. *)
Definition js_ge `{Runtime} (v : value) (c : Q) : bool :=
  match to_number v with
  | Some q => Qle_bool c q
  | None => false
  end.

Definition js_lt `{Runtime} (v : value) (c : Q) : bool :=
  match to_number v with
  | Some q => negb (Qle_bool c q)
  | None => false
  end.

(** ** The Store: the four [useState] cells of [AlertProvider]
    (lines 293-296)

    A setter call is taken to update its cell at once, and an updater
    function ([setAlerts(prev => ...)]) to be applied to the current content
    of the cell: React applies the queued updates in the order of the
    calls. *)

Definition time := Z.

Record store : Type := Store {
  alerts : list obj;
  loading : bool;
  error : option string;
  lastUpdated : option time
}.

Definition setAlerts (l : list obj) (s : store) : store :=
  Store l (loading s) (error s) (lastUpdated s).
Definition setLoading (b : bool) (s : store) : store :=
  Store (alerts s) b (error s) (lastUpdated s).
Definition setError (e : option string) (s : store) : store :=
  Store (alerts s) (loading s) e (lastUpdated s).
Definition setLastUpdated (t : time) (s : store) : store :=
  Store (alerts s) (loading s) (error s) (Some t).

(** ** Derived views (lines 392-408) *)

(** [alert => !alert.is_acknowledged] and [alert => alert.is_acknowledged]. *)
Definition is_active (alert : obj) : bool :=
  negb (truthy (field alert "is_acknowledged")).
Definition is_acknowledged (alert : obj) : bool :=
  truthy (field alert "is_acknowledged").

(** [alert.severity === 'critical' ||
     (alert.risk_score && alert.risk_score >= 0.8)]. *)
Definition is_critical `{Runtime} (alert : obj) : bool :=
  truthy
    (js_or (VBool (strict_eq (field alert "severity") (PStr "critical")))
           (js_and (field alert "risk_score")
                   (VBool (js_ge (field alert "risk_score") lit_0_8)))).

(** [alert.severity === 'high' ||
     (alert.risk_score && alert.risk_score >= 0.6 && alert.risk_score < 0.8)]. *)
Definition is_high `{Runtime} (alert : obj) : bool :=
  truthy
    (js_or (VBool (strict_eq (field alert "severity") (PStr "high")))
           (js_and (js_and (field alert "risk_score")
                           (VBool (js_ge (field alert "risk_score") lit_0_6)))
                   (VBool (js_lt (field alert "risk_score") lit_0_8)))).

Definition activeAlerts (s : store) : list obj :=
  List.filter is_active (alerts s).
Definition criticalAlerts `{Runtime} (s : store) : list obj :=
  List.filter is_critical (alerts s).
Definition highRiskAlerts `{Runtime} (s : store) : list obj :=
  List.filter is_high (alerts s).
Definition acknowledgedAlerts (s : store) : list obj :=
  List.filter is_acknowledged (alerts s).

Record stats_t : Type := Stats {
  total : nat;
  active : nat;
  critical : nat;
  highRisk : nat;
  acknowledged : nat
}.

Definition stats `{Runtime} (s : store) : stats_t :=
  {| total := length (alerts s);
     active := length (activeAlerts s);
     critical := length (criticalAlerts s);
     highRisk := length (highRiskAlerts s);
     acknowledged := length (acknowledgedAlerts s) |}.

(** ** The status filter of the Alerts page (part_003, lines 72-77)

    The callback of [alerts.filter] up to the search term, which is taken
    empty: the four guarded [return false] and the final [return true].
    [a !== b] is [!(a === b)]. *)
Definition status_filter `{Runtime} (filter : string) (alert : obj) : bool :=
  if String.eqb filter "acknowledged" && negb (truthy (field alert "is_acknowledged"))
  then false
  else if String.eqb filter "critical"
          && negb (strict_eq (field alert "severity") (PStr "critical"))
          && js_lt (field alert "risk_score") lit_0_8
  then false
  else if String.eqb filter "high"
          && negb (strict_eq (field alert "severity") (PStr "high"))
          && (js_lt (field alert "risk_score") lit_0_6
              || js_ge (field alert "risk_score") lit_0_8)
  then false
  else if String.eqb filter "medium"
          && negb (strict_eq (field alert "severity") (PStr "medium"))
          && (js_lt (field alert "risk_score") lit_0_4
              || js_ge (field alert "risk_score") lit_0_6)
  then false
  else true.

(** ** The event-driven machine *)

(** The calls of [alertAPI] (services/api.js, lines 92-104). *)
Inductive api_call : Type :=
| GetActiveAlerts
| AcknowledgeAlert (alertId : prim)
| DismissAlert (alertId : prim).

(** How an awaited call settles: fulfilled with [response.data], or
    rejected (axios rejects on a network error and on a bad status).  A body
    that is not valid JSON does not reject the call: the instance of
    services/api.js (lines 8-14) keeps the defaults of axios, under which
    [response.data] is then the text of the body, a string. *)
Inductive reply : Type :=
| Fulfilled (data : value)
| Rejected.

Inductive retval : Type :=
| RAlerts (l : list obj)
| RBool (b : bool).

(** What the code does to the world, in program order: the state setters,
    the network calls, the timers, and the value an asynchronous function
    finally returns.  [console.log] and [console.error] are left out. *)
Inductive effect : Type :=
| ESetAlerts (l : list obj)
| ESetLoading (b : bool)
| ESetError (e : option string)
| ESetLastUpdated (t : time)
| ECall (c : api_call)
| ESetTimeout (ms : Z)
| ESetInterval (ms : Z)
| EClearInterval
| EReturn (r : retval).

(** Who called [fetchAlerts]: a timer, the effect or [refreshAlerts], where
    nothing follows the fetch; or the [catch] block of a mutation (lines 353
    and 376), which then returns [false]. *)
Inductive caller : Type :=
| Direct
| FromCatch.

(** A suspended asynchronous function: [fetchAlerts] at its [await]
    (line 302), [acknowledgeAlert] at line 341, [dismissAlert] at line 364. *)
Inductive task : Type :=
| TFetch (c : caller)
| TAcknowledge (alertId : prim)
| TDismiss (alertId : prim).

Record machine : Type := Machine {
  st : store;
  pending : list task;      (* the calls awaiting their reply *)
  interval : bool;          (* the polling interval is registered *)
  timeouts : nat;           (* the scheduled [setTimeout(() => fetchAlerts(), 500)] *)
  trace : list effect
}.

Definition init : machine :=
  Machine (Store [] false None None) [] false 0 [].

Definition is_fetch (t : task) : bool :=
  match t with
  | TFetch _ => true
  | _ => false
  end.

(** The number of [getActiveAlerts] requests in flight. *)
Definition in_flight (m : machine) : nat :=
  length (List.filter is_fetch (pending m)).

(** [fetchAlerts] up to its [await] (lines 299-302). *)
Definition fetch_start (c : caller) (m : machine) : machine :=
  Machine (setError None (setLoading true (st m)))
          (pending m ++ [TFetch c])
          (interval m) (timeouts m)
          (trace m ++ [ESetLoading true; ESetError None; ECall GetActiveAlerts]).

(** A fetch fails when the request is rejected or the normalisation of its
    payload throws: both land in the [catch] block. *)
Definition fetch_fails (r : reply) : bool :=
  match r with
  | Rejected => true
  | Fulfilled data =>
      match normalize data with
      | Some _ => false
      | None => true
      end
  end.

(** [fetchAlerts] after its [await] (lines 304-330): the effects it issues,
    with the returned value last, and what they do to the Store.  On success
    [setAlerts], [setLastUpdated]; in the [catch] block [setError]; in both
    cases [setLoading(false)] from [finally] before the function returns. *)
Definition fetch_effects (r : reply) (now : time) : list effect :=
  match r with
  | Fulfilled data =>
      match normalize data with
      | Some alertsData =>
          [ESetAlerts alertsData; ESetLastUpdated now; ESetLoading false;
           EReturn (RAlerts alertsData)]
      | None =>
          [ESetError (Some "Failed to load alerts"); ESetLoading false;
           EReturn (RAlerts [])]
      end
  | Rejected =>
      [ESetError (Some "Failed to load alerts"); ESetLoading false;
       EReturn (RAlerts [])]
  end.

Definition apply_effect (e : effect) (s : store) : store :=
  match e with
  | ESetAlerts l => setAlerts l s
  | ESetLoading b => setLoading b s
  | ESetError x => setError x s
  | ESetLastUpdated t => setLastUpdated t s
  | _ => s
  end.

Definition apply_effects (es : list effect) (s : store) : store :=
  foldl (λ s e, apply_effect e s) s es.

(** The optimistic edits (lines 336-338 and 361):
    [prev.map(alert => alert.id === alertId
                        ? { ...alert, is_acknowledged: true } : alert)] and
    [prev.filter(alert => alert.id !== alertId)]. *)
Definition acknowledge_one (alertId : prim) (alert : obj) : obj :=
  if strict_eq (field alert "id") alertId
  then <["is_acknowledged" := VBool true]> alert
  else alert.

Definition keep_on_dismiss (alertId : prim) (alert : obj) : bool :=
  negb (strict_eq (field alert "id") alertId).

(** The continuation of a suspended task when its call settles at time
    [now].
    - A fetch runs lines 304-330; called from a [catch] block, the mutation
      then returns [false] (lines 354, 377).
    - A mutation whose call is fulfilled sets [lastUpdated], schedules the
      delayed fetch and returns [true] (lines 343-349, 366-372); rejected,
      it calls [fetchAlerts] and awaits it (lines 353, 376). *)
Definition resume (t : task) (r : reply) (now : time) (m : machine) : machine :=
  match t with
  | TFetch c =>
      let es := fetch_effects r now ++
                match c with
                | Direct => []
                | FromCatch => [EReturn (RBool false)]
                end in
      Machine (apply_effects es (st m)) (pending m) (interval m) (timeouts m)
              (trace m ++ es)
  | TAcknowledge _ | TDismiss _ =>
      match r with
      | Fulfilled _ =>
          Machine (setLastUpdated now (st m)) (pending m) (interval m)
                  (S (timeouts m))
                  (trace m ++ [ESetLastUpdated now; ESetTimeout 500;
                               EReturn (RBool true)])
      | Rejected => fetch_start FromCatch m
      end
  end.

Inductive event : Type :=
| Mount                                   (* the effect of lines 386-390 runs *)
| Unmount                                 (* its cleanup runs *)
| IntervalFire                            (* [setInterval(fetchAlerts, 30000)] *)
| TimeoutFire                             (* [setTimeout(() => fetchAlerts(), 500)] *)
| Refresh                                 (* [refreshAlerts()] *)
| Acknowledge (alertId : prim)            (* [acknowledgeAlert(alertId)] *)
| Dismiss (alertId : prim)                (* [dismissAlert(alertId)] *)
| Reply (i : nat) (r : reply) (now : time). (* the [i]-th pending call settles *)

(** The cleanup of the polling effect: [clearInterval(interval)] and
    nothing else. *)
Definition unmount (m : machine) : machine :=
  Machine (st m) (pending m) false (timeouts m) (trace m ++ [EClearInterval]).

(** One run-to-completion turn of the event loop.  [None]: the event cannot
    happen in this state (no interval or timeout to fire, no such pending
    call, mounting what is mounted). *)
Definition step (e : event) (m : machine) : option machine :=
  match e with
  | Mount =>
      if interval m then None
      else
        let m1 := fetch_start Direct m in
        Some (Machine (st m1) (pending m1) true (timeouts m1)
                      (trace m1 ++ [ESetInterval 30000]))
  | Unmount =>
      if interval m then Some (unmount m) else None
  | IntervalFire =>
      if interval m then Some (fetch_start Direct m) else None
  | TimeoutFire =>
      match timeouts m with
      | O => None
      | S n =>
          Some (fetch_start Direct
                  (Machine (st m) (pending m) (interval m) n (trace m)))
      end
  | Refresh => Some (fetch_start Direct m)
  | Acknowledge alertId =>
      let l := acknowledge_one alertId <$> alerts (st m) in
      Some (Machine (setAlerts l (st m))
                    (pending m ++ [TAcknowledge alertId])
                    (interval m) (timeouts m)
                    (trace m ++ [ESetAlerts l; ECall (AcknowledgeAlert alertId)]))
  | Dismiss alertId =>
      let l := List.filter (keep_on_dismiss alertId) (alerts (st m)) in
      Some (Machine (setAlerts l (st m))
                    (pending m ++ [TDismiss alertId])
                    (interval m) (timeouts m)
                    (trace m ++ [ESetAlerts l; ECall (DismissAlert alertId)]))
  | Reply i r now =>
      match pending m !! i with
      | None => None
      | Some t =>
          Some (resume t r now
                  (Machine (st m) (delete i (pending m)) (interval m)
                           (timeouts m) (trace m)))
      end
  end.

Fixpoint run (es : list event) (m : machine) : option machine :=
  match es with
  | [] => Some m
  | e :: es' =>
      match step e m with
      | Some m' => run es' m'
      | None => None
      end
  end.

(** The effects a step adds to the trace. *)
Definition emitted (e : event) (m : machine) : option (list effect) :=
  match step e m with
  | Some m' => Some (drop (length (trace m)) (trace m'))
  | None => None
  end.

(** ** Scenario data *)

(** The fetch result of the scenario of the specification:
    [[{id:'a1', risk_score:0.85, is_acknowledged:false},
      {id:'a2', severity:'medium', is_acknowledged:true}]]. *)
Definition scenario_payload : value :=
  VArr [VObj (<["id" := VStr "a1"]>
              (<["risk_score" := VNum lit_0_85]>
               (<["is_acknowledged" := VBool false]> ∅)));
        VObj (<["id" := VStr "a2"]>
              (<["severity" := VStr "medium"]>
               (<["is_acknowledged" := VBool true]> ∅)))].

(** ** Predicates of the specification *)

(** "The severity tag equals [tag]". *)
Definition severity_is (alert : obj) (tag : string) : Prop :=
  field alert "severity" = VStr tag.

(** "The risk score is >= c" and "the risk score is < c": the score has a
    numeric value, and that value compares so. *)
Definition risk_at_least `{Runtime} (alert : obj) (c : Q) : Prop :=
  ∃ q, to_number (field alert "risk_score") = Some q ∧ (c <= q)%Q.

Definition risk_below `{Runtime} (alert : obj) (c : Q) : Prop :=
  ∃ q, to_number (field alert "risk_score") = Some q ∧ (q < c)%Q.

(** [{severity:'high', risk_score:0.9}], the overlap example. *)
Definition overlap_alert : obj :=
  <["severity" := VStr "high"]> (<["risk_score" := VNum lit_0_9]> ∅).

(** A raw element on which [||] and [??] resolve differently. *)
Definition falsy_fields_alert : value :=
  VObj (<["alert_id" := VStr EmptyString]>
        (<["id" := VStr "x"]>
         (<["is_acknowledged" := VBool false]>
          (<["acknowledged" := VBool true]> ∅)))).

(** The machine right after the provider is mounted: the first fetch is in
    flight and the polling interval is registered. *)
Definition mounted : machine :=
  Machine (Store [] true None None) [TFetch Direct] true 0
          [ESetLoading true; ESetError None; ECall GetActiveAlerts;
           ESetInterval 30000].

(** The life of a mutation issued by event [e] in state [m], with remote
    call [c] and optimistically edited list [edited]; [n] is the position
    its task takes among the pending calls.
    - If the remote call is fulfilled, the mutation has issued the edit, the
      call, [setLastUpdated], the delayed fetch, and returns [true].
    - If it is rejected, the edited list stays in the Store, [fetchAlerts]
      is started, and when that fetch settles the mutation returns [false]
      after the writes of the fetch. *)
Definition mutation_contract
    (e : event) (c : api_call) (edited : list obj) (m : machine) : Prop :=
  let n := length (pending m) in
  (∀ (d : value) (now : time),
     ∃ m1, run [e; Reply n (Fulfilled d) now] m = Some m1 ∧
           alerts (st m1) = edited ∧
           trace m1 = trace m ++ [ESetAlerts edited; ECall c;
                                  ESetLastUpdated now; ESetTimeout 500;
                                  EReturn (RBool true)]) ∧
  (∀ (now now' : time) (r' : reply),
     ∃ m2 m3, run [e; Reply n Rejected now] m = Some m2 ∧
              alerts (st m2) = edited ∧
              pending m2 = pending m ++ [TFetch FromCatch] ∧
              trace m2 = trace m ++ [ESetAlerts edited; ECall c;
                                     ESetLoading true; ESetError None;
                                     ECall GetActiveAlerts] ∧
              step (Reply n r' now') m2 = Some m3 ∧
              trace m3 = trace m2 ++ fetch_effects r' now'
                                  ++ [EReturn (RBool false)]).

(** ** The Alerts page (part_003, lines 37-69 and 166-208) *)

(** The predicates of the four stat cards (lines 166, 180, 194, 208):
    [a => !a.is_acknowledged],
    [a => a.severity === 'critical' || (a.risk_score >= 0.8)],
    [a => a.severity === 'high' || (a.risk_score >= 0.6 && a.risk_score < 0.8)],
    [a => a.is_acknowledged].  Unlike the views of the provider, the two tier
    predicates compare the score without testing it first. *)
Definition card_active (a : obj) : bool :=
  negb (truthy (field a "is_acknowledged")).

Definition card_critical `{Runtime} (a : obj) : bool :=
  strict_eq (field a "severity") (PStr "critical")
  || js_ge (field a "risk_score") lit_0_8.

Definition card_high `{Runtime} (a : obj) : bool :=
  strict_eq (field a "severity") (PStr "high")
  || (js_ge (field a "risk_score") lit_0_6 && js_lt (field a "risk_score") lit_0_8).

Definition card_acknowledged (a : obj) : bool :=
  truthy (field a "is_acknowledged").

(** [getSeverityColor(severity, riskScore)] (lines 37-46). *)
Definition getSeverityColor `{Runtime} (severity riskScore : value) : string :=
  if truthy (js_or (VBool (strict_eq severity (PStr "critical")))
                   (js_and riskScore (VBool (js_ge riskScore lit_0_8))))
  then "border-red-500 bg-red-50"
  else if truthy (js_or (VBool (strict_eq severity (PStr "high")))
                        (js_and riskScore (VBool (js_ge riskScore lit_0_6))))
  then "border-yellow-500 bg-yellow-50"
  else if truthy (js_or (VBool (strict_eq severity (PStr "medium")))
                        (js_and riskScore (VBool (js_ge riskScore lit_0_4))))
  then "border-blue-500 bg-blue-50"
  else "border-gray-300 bg-gray-50".

(** [getSeverityIcon(severity, riskScore)] (lines 48-55): the icon component
    and its class. *)
Inductive icon : Type :=
| ExclamationTriangleIcon (className : string)
| BellIcon (className : string).

Definition getSeverityIcon `{Runtime} (severity riskScore : value) : icon :=
  if truthy (js_or (VBool (strict_eq severity (PStr "critical")))
                   (js_and riskScore (VBool (js_ge riskScore lit_0_8))))
  then ExclamationTriangleIcon "w-6 h-6 text-red-600"
  else if truthy (js_or (VBool (strict_eq severity (PStr "high")))
                        (js_and riskScore (VBool (js_ge riskScore lit_0_6))))
  then ExclamationTriangleIcon "w-6 h-6 text-yellow-600"
  else BellIcon "w-6 h-6 text-blue-600".

(** [getRiskLevelColor(riskScore)] and [getRiskLevelText(riskScore)]
    (lines 57-69; the text function is the same in Dashboard.js 122-127 and
    Patients.js 103-108). *)
Definition getRiskLevelColor `{Runtime} (riskScore : value) : string :=
  if js_ge riskScore lit_0_8 then "text-red-600 bg-red-100"
  else if js_ge riskScore lit_0_6 then "text-yellow-600 bg-yellow-100"
  else if js_ge riskScore lit_0_4 then "text-blue-600 bg-blue-100"
  else "text-green-600 bg-green-100".

Definition getRiskLevelText `{Runtime} (riskScore : value) : string :=
  if js_ge riskScore lit_0_8 then "Critical"
  else if js_ge riskScore lit_0_6 then "High"
  else if js_ge riskScore lit_0_4 then "Medium"
  else "Low".

(** ** The risk-level filter of the Patients page (Patients.js, lines 83-89)

    The callback of [filtered.filter] for a selected risk level; the page
    applies it only when a level is selected. *)
Definition risk_level_filter `{Runtime} (selectedRiskLevel : string) (patient : obj) : bool :=
  if String.eqb selectedRiskLevel "critical"
  then js_ge (field patient "risk_score") lit_0_8
  else if String.eqb selectedRiskLevel "high"
  then js_ge (field patient "risk_score") lit_0_6
       && js_lt (field patient "risk_score") lit_0_8
  else if String.eqb selectedRiskLevel "medium"
  then js_ge (field patient "risk_score") lit_0_4
       && js_lt (field patient "risk_score") lit_0_6
  else if String.eqb selectedRiskLevel "low"
  then js_lt (field patient "risk_score") lit_0_4
  else true.

(** ** Vital signs of the patient page (part_005, lines 155-159)

    [getVitalStatus(value, normal)]; [normal] is an entry [{min, max}] of
    [normalRanges], or [undefined]. *)

(** [v > c] for a number literal [c]: false on [NaN]. *)
Definition js_gt `{Runtime} (v : value) (c : Q) : bool :=
  match to_number v with
  | Some q => negb (Qle_bool q c)
  | None => false
  end.

Definition getVitalStatus `{Runtime} (v : value) (normal : option (Q * Q)) : string :=
  match normal with
  | None => "text-gray-500"
  | Some (min, max) =>
      if negb (truthy v) then "text-gray-500"
      else if js_lt v min || js_gt v max then "text-red-600"
      else "text-green-600"
  end.

(** ** The request interceptor (services/api.js, lines 4-5 and 17-28) *)

(** [process.env.REACT_APP_API_KEY || 'secure-api-key-change-in-production'];
    [env] is the variable, if set. *)
Definition API_KEY (env : option string) : string :=
  match env with
  | Some k => if String.eqb k EmptyString
              then "secure-api-key-change-in-production" else k
  | None => "secure-api-key-change-in-production"
  end.

(** The [Authorization] header the interceptor sets, if any; [token] is the
    result of [localStorage.getItem('auth_token')]. *)
Definition authorization (token : option string) (env : option string) : option string :=
  let with_key :=
    if negb (String.eqb (API_KEY env) EmptyString)
    then Some ("Bearer " ++ API_KEY env)%string
    else None in
  match token with
  | Some t => if negb (String.eqb t EmptyString)
              then Some ("Bearer " ++ t)%string else with_key
  | None => with_key
  end.

(** ** The authentication provider (Header.js, lines 94-276) *)

Module Auth.

(** ToString on a number, an array or an object belongs to the JavaScript
    engine: a parameter of the model. *)
Class Strings := ToString_ext : value → string.

Definition to_string `{Strings} (v : value) : string :=
  match v with
  | VStr s => s
  | VUndefined => "undefined"
  | VNull => "null"
  | VBool true => "true"
  | VBool false => "false"
  | _ => ToString_ext v
  end.

(** The three [useState] cells (lines 95-97). *)
Record store : Type := Store {
  user : value;
  loading : bool;
  error : value
}.

Inductive api_call : Type :=
| VerifyToken
| Login (credentials : value)
| Signup (userData : value)
| Logout
| UpdateProfile (profileData : value)
| ChangePassword (passwordData : value).

(** How an awaited call settles: fulfilled with [response.data], or rejected
    with an error object (axios rejects with an [Error], which may carry the
    [response] of the server). *)
Inductive reply : Type :=
| Fulfilled (data : value)
| Rejected (err : obj).

(** The setters, the accesses to [localStorage] under the key
    ['auth_token'], the network calls, and the value an asynchronous function
    finally returns.  [localStorage] is assumed to work. *)
Inductive effect : Type :=
| ESetUser (u : value)
| ESetLoading (b : bool)
| ESetError (e : value)
| ESetItem (t : string)
| ERemoveItem
| ECall (c : api_call)
| EReturn (r : value).

(** A suspended function, at its [await] (lines 110, 131, 164, 193, 210,
    233). *)
Inductive task : Type :=
| TCheckAuthStatus
| TLogin
| TSignup
| TLogout
| TUpdateProfile
| TChangePassword.

Record machine : Type := Machine {
  st : store;
  token : option string;       (* [localStorage.getItem('auth_token')] *)
  pending : list task;
  trace : list effect
}.

(** The provider before its first effect, for a given content of
    [localStorage]. *)
Definition init (t : option string) : machine :=
  Machine (Store VNull true VNull) t [] [].

(** [isAuthenticated: !!user] (line 259). *)
Definition isAuthenticated (s : store) : bool := truthy (user s).

Definition apply_effect (m : machine) (e : effect) : machine :=
  let s := st m in
  match e with
  | ESetUser u =>
      Machine (Store u (loading s) (error s)) (token m) (pending m) (trace m ++ [e])
  | ESetLoading b =>
      Machine (Store (user s) b (error s)) (token m) (pending m) (trace m ++ [e])
  | ESetError x =>
      Machine (Store (user s) (loading s) x) (token m) (pending m) (trace m ++ [e])
  | ESetItem t =>
      Machine s (Some t) (pending m) (trace m ++ [e])
  | ERemoveItem =>
      Machine s None (pending m) (trace m ++ [e])
  | ECall _ | EReturn _ =>
      Machine s (token m) (pending m) (trace m ++ [e])
  end.

Definition exec (es : list effect) (m : machine) : machine :=
  foldl apply_effect m es.

(** [error.response?.data?.message]. *)
Definition response_message (err : obj) : value :=
  if nullish (field err "response") then VUndefined
  else if nullish (get (field err "response") "data") then VUndefined
  else get (get (field err "response") "data") "message".

(** [error.response?.data?.message || error.message || fallback]. *)
Definition error_message (err : obj) (fallback : string) : value :=
  js_or (js_or (response_message err) (field err "message")) (VStr fallback).

(** [new Error(msg)]. *)
Definition thrown (msg : string) : obj := {["message" := VStr msg]}.

(** The [catch] and [finally] blocks shared by [login], [signup],
    [updateProfile] and [changePassword]. *)
Definition failure (err : obj) (fallback : string) : list effect :=
  let errorMessage := error_message err fallback in
  [ESetError errorMessage; ESetLoading false;
   EReturn (VObj (<["success" := VBool false]> {["error" := errorMessage]}))].

(** The text of [response.data && response.data.token && response.data.user]. *)
Definition has_session (data : value) : bool :=
  truthy data && truthy (get data "token") && truthy (get data "user").

(** [login] and [signup] after their [await] (lines 133-156, 166-187). *)
Definition session_settle `{Strings} (fallback : string) (r : reply) : list effect :=
  match r with
  | Fulfilled data =>
      if has_session data
      then [ESetItem (to_string (get data "token")); ESetUser (get data "user");
            ESetLoading false;
            EReturn (VObj (<["success" := VBool true]>
                           {["user" := get data "user"]}))]
      else failure (thrown "Invalid response from server") fallback
  | Rejected err => failure err fallback
  end.

(** What a suspended function does when its call settles. *)
Definition settle `{Strings} (t : task) (r : reply) : list effect :=
  match t with
  | TCheckAuthStatus =>
      match r with
      | Fulfilled data =>
          (if truthy data && truthy (get data "user")
           then [ESetUser (get data "user")]
           else [ERemoveItem])
          ++ [ESetLoading false; EReturn VUndefined]
      | Rejected _ =>
          [ERemoveItem; ESetUser VNull; ESetLoading false; EReturn VUndefined]
      end
  | TLogin => session_settle "Login failed" r
  | TSignup => session_settle "Signup failed" r
  | TLogout =>
      [ERemoveItem; ESetUser VNull; ESetError VNull; EReturn VUndefined]
  | TUpdateProfile =>
      match r with
      | Fulfilled data =>
          if truthy data && truthy (get data "user")
          then [ESetUser (get data "user"); ESetLoading false;
                EReturn (VObj (<["success" := VBool true]>
                               {["user" := get data "user"]}))]
          else failure (thrown "Failed to update profile") "Profile update failed"
      | Rejected err => failure err "Profile update failed"
      end
  | TChangePassword =>
      match r with
      | Fulfilled data =>
          if truthy data && truthy (get data "success")
          then [ESetLoading false; EReturn (VObj {["success" := VBool true]})]
          else failure (thrown "Failed to change password") "Password change failed"
      | Rejected err => failure err "Password change failed"
      end
  end.

Inductive event : Type :=
| CheckAuthStatus                       (* also the effect of lines 100-102 *)
| DoLogin (credentials : value)
| DoSignup (userData : value)
| DoLogout
| DoUpdateProfile (profileData : value)
| DoChangePassword (passwordData : value)
| ClearError
| Reply (i : nat) (r : reply).

(** A call that suspends: the effects up to the [await], and the task left
    pending. *)
Definition suspend (es : list effect) (t : task) (m : machine) : machine :=
  let m' := exec es m in
  Machine (st m') (token m') (pending m' ++ [t]) (trace m').

Definition has_token (m : machine) : bool :=
  match token m with
  | Some t => negb (String.eqb t EmptyString)
  | None => false
  end.

Definition step `{Strings} (e : event) (m : machine) : option machine :=
  match e with
  | CheckAuthStatus =>
      if has_token m
      then Some (suspend [ESetLoading true; ECall VerifyToken] TCheckAuthStatus m)
      else Some (exec [ESetLoading true; ESetLoading false; EReturn VUndefined] m)
  | DoLogin c =>
      Some (suspend [ESetLoading true; ESetError VNull; ECall (Login c)] TLogin m)
  | DoSignup d =>
      Some (suspend [ESetLoading true; ESetError VNull; ECall (Signup d)] TSignup m)
  | DoLogout =>
      Some (suspend [ECall Logout] TLogout m)
  | DoUpdateProfile d =>
      Some (suspend [ESetLoading true; ESetError VNull; ECall (UpdateProfile d)]
                    TUpdateProfile m)
  | DoChangePassword d =>
      Some (suspend [ESetLoading true; ESetError VNull; ECall (ChangePassword d)]
                    TChangePassword m)
  | ClearError => Some (exec [ESetError VNull] m)
  | Reply i r =>
      match pending m !! i with
      | None => None
      | Some t =>
          Some (exec (settle t r)
                  (Machine (st m) (token m) (delete i (pending m)) (trace m)))
      end
  end.

Fixpoint run `{Strings} (es : list event) (m : machine) : option machine :=
  match es with
  | [] => Some m
  | e :: es' =>
      match step e m with
      | Some m' => run es' m'
      | None => None
      end
  end.

(** The operations that show a spinner, with the task each one leaves
    pending. *)
Definition guarded_by_loading (e : event) : option task :=
  match e with
  | DoLogin _ => Some TLogin
  | DoSignup _ => Some TSignup
  | DoUpdateProfile _ => Some TUpdateProfile
  | DoChangePassword _ => Some TChangePassword
  | _ => None
  end.

End Auth.

(** ** The dashboard loader (Dashboard.js, lines 31-51) *)

Module Dashboard.

Inductive effect : Type :=
| ESetLoading (b : bool)
| ESetError (e : option string)
| ESetStats (s : value)
| ESetRecentPatients (l : value)
| ECall (path : string).

(** [x.slice(0, 5)]: the first five elements of an array, the first five
    characters of a string; on any other value that is neither [null] nor
    [undefined] there is no such method and the call throws ([None]). *)
Definition slice_0_5 (x : value) : option value :=
  match x with
  | VArr l => Some (VArr (take 5 l))
  | VStr s => Some (VStr (String.substring 0 5 s))
  | _ => None
  end.

(** The response each request contributes after its own [.catch]
    (lines 37-38): its [data], or the fallback [null], respectively [[]]. *)
Definition stats_data (r : reply) : value :=
  match r with
  | Fulfilled data => data
  | Rejected => VNull
  end.

Definition patients_data (r : reply) : value :=
  match r with
  | Fulfilled data => data
  | Rejected => VArr []
  end.

(** [loadDashboardData], given how the two requests settle. *)
Definition loadDashboardData (statsReply patientsReply : reply) : list effect :=
  [ESetLoading true; ESetError None; ECall "/stats"; ECall "/patients";
   ESetStats (stats_data statsReply)]
  ++ match slice_0_5 (js_or (patients_data patientsReply) (VArr [])) with
     | Some recent => [ESetRecentPatients recent]
     | None => [ESetError (Some "Failed to load dashboard data")]
     end
  ++ [ESetLoading false].

(** The four [useState] cells (lines 19-22), as left by a list of
    effects. *)
Record store : Type := Store {
  stats : value;
  recentPatients : value;
  loading : bool;
  error : option string
}.

Definition init : store := Store VNull (VArr []) true None.

Definition apply_effect (s : store) (e : effect) : store :=
  match e with
  | ESetLoading b => Store (stats s) (recentPatients s) b (error s)
  | ESetError x => Store (stats s) (recentPatients s) (loading s) x
  | ESetStats v => Store v (recentPatients s) (loading s) (error s)
  | ESetRecentPatients l => Store (stats s) l (loading s) (error s)
  | ECall _ => s
  end.

Definition exec (es : list effect) (s : store) : store := foldl apply_effect s es.

End Dashboard.

(** A login or a signup fails when the call is rejected or the response
    lacks a token or a user. *)
Definition session_fails (r : Auth.reply) : bool :=
  match r with
  | Auth.Fulfilled data => negb (Auth.has_session data)
  | Auth.Rejected _ => true
  end.

(** Two instances of the parameters of the model, for examples: an engine
    in which no string, array or object converts to a number, and one in
    which numbers, arrays and objects convert to the string ['?']. *)
Definition no_coercion : Runtime := λ _, None.
Definition opaque_strings : Auth.Strings := λ _, "?"%string.

(** The provider with the token ['t0'] in [localStorage], before its first
    effect. *)
Definition signed_in : Auth.machine := Auth.init (Some "t0"%string).

(** The provider while it polls: the first fetch has brought the two
    alerts of the scenario, and the polling timer has started the next
    fetch, which is in flight. *)
Definition polling : machine :=
  default init
    (run [Mount; Reply 0 (Fulfilled scenario_payload) 1%Z; IntervalFire] init).

(** A response body that could not be parsed as JSON. *)
Definition unparsed_body : value := VStr "<html>maintenance</html>".

(** * Properties *)

(** ** Values *)

Lemma truthy_id_nonempty (v : value) : truthy v = true → id_nonempty v = true.
Proof. destruct v; simpl; auto; discriminate. Qed.

Lemma truthy_js_and_bool (a : value) (b : bool) :
  truthy (js_and a (VBool b)) = truthy a && b.
Proof. unfold js_and. destruct (truthy a) eqn:Ha; simpl; [reflexivity | exact Ha]. Qed.

Lemma js_or_truthy_l (a b : value) : truthy a = true → js_or a b = a.
Proof. unfold js_or. intros ->. reflexivity. Qed.

Lemma js_or_falsy_l (a b : value) : truthy a = false → js_or a b = b.
Proof. unfold js_or. intros ->. reflexivity. Qed.

(** [||] and [??] agree unless the left operand is falsy without being
    nullish (false, 0, the empty string). *)
Lemma js_or_nullish_agree (a b : value) :
  truthy a = true ∨ nullish a = true → js_or a b = js_nullish a b.
Proof.
  intros [Ht | Hn].
  - rewrite js_or_truthy_l by assumption.
    destruct a; simpl in *; try reflexivity; discriminate.
  - destruct a; simpl in *; try discriminate; reflexivity.
Qed.

Lemma strict_eq_str (v : value) (s : string) :
  strict_eq v (PStr s) = true ↔ v = VStr s.
Proof.
  destruct v; simpl; try (split; [discriminate | congruence]).
  rewrite String.eqb_eq. split; congruence.
Qed.

(** ** Normalisation *)

Lemma normalize_alert_Some (raw : value) :
  nullish raw = false →
  normalize_alert raw =
    Some (<["is_acknowledged" :=
              js_or (js_or (get raw "is_acknowledged") (get raw "acknowledged"))
                    (VBool false)]>
          (<["id" := js_or (get raw "alert_id") (get raw "id")]> (spread raw))).
Proof. unfold normalize_alert. intros ->. reflexivity. Qed.

Lemma normalize_alert_id (raw : value) (o : obj) :
  normalize_alert raw = Some o →
  field o "id" = js_or (get raw "alert_id") (get raw "id").
Proof.
  unfold normalize_alert. destruct (nullish raw); [discriminate |].
  intros [= <-]. unfold field.
  rewrite lookup_insert_ne by discriminate.
  rewrite lookup_insert_eq. reflexivity.
Qed.

Lemma id_nonempty_js_or (a b : value) :
  id_nonempty (js_or a b) = truthy a || id_nonempty b.
Proof.
  unfold js_or. destruct (truthy a) eqn:Ha; simpl; [| reflexivity].
  apply truthy_id_nonempty, Ha.
Qed.

Lemma mapM_normalize_alert (raws : list value) :
  Forall (λ raw, nullish raw = false) raws →
  ∃ out, mapM normalize_alert raws = Some out ∧
         Forall2 (λ raw o, normalize_alert raw = Some o) raws out.
Proof.
  intros Hall.
  destruct (mapM normalize_alert raws) as [out |] eqn:E.
  - exists out. split; [reflexivity |]. apply mapM_Some, E.
  - exfalso. apply mapM_None in E.
    apply Exists_exists in E as (raw & Hin & Hnone).
    rewrite Forall_forall in Hall. specialize (Hall raw Hin).
    rewrite normalize_alert_Some in Hnone by assumption. discriminate.
Qed.

Lemma normalize_payload_array (data : value) (raws : list value) :
  payload_array data = Some raws →
  normalize data = mapM normalize_alert raws.
Proof.
  unfold payload_array, normalize.
  destruct data as [| | b | q | s | l | m]; try discriminate.
  - intros [= ->]. reflexivity.
  - simpl. unfold field.
    destruct (m !! "alerts") as [[| | b | q | s | l | m'] |]; try discriminate.
    intros [= ->]. reflexivity.
Qed.

Lemma normalize_other_shape (data : value) :
  payload_array data = None → normalize data = Some [].
Proof.
  unfold payload_array, normalize.
  destruct data as [| | b | q | s | l | m];
    try (intros _; reflexivity); try discriminate.
  - intros _. simpl. rewrite andb_false_r. reflexivity.
  - intros _. simpl. rewrite andb_false_r. reflexivity.
  - intros _. simpl. rewrite andb_false_r. reflexivity.
  - simpl. unfold field.
    destruct (m !! "alerts") as [[| | b | q | s | l | m'] |];
      try discriminate; intros _; simpl; try reflexivity.
    + destruct b; reflexivity.
    + destruct (negb (Qeq_bool q 0)); reflexivity.
    + destruct (negb (String.eqb s EmptyString)); reflexivity.
Qed.

(** C3, as stated, fails: the payload [{alerts: [{}]}] is normalised to one
    alert whose [id] is [undefined]. *)
Lemma normalize_empty_id :
  ∃ o, normalize (VObj {["alerts" := VArr [VObj ∅]]}) = Some [o] ∧
       field o "id" = VUndefined ∧
       id_nonempty (field o "id") = false.
Proof. eexists. split; [reflexivity |]. split; reflexivity. Qed.

(** C3 (amended): a payload [{alerts: [...]}] or a bare array whose [N]
    elements are all different from [null] is normalised, without an
    exception, to a sequence of length [N] in which each element's [id] is
    [raw.alert_id || raw.id] of the raw element, hence non-empty exactly
    when the raw element has a truthy [alert_id] or a non-empty [id]; a
    payload of any other shape ([undefined] included) is normalised to the
    empty sequence. *)
Theorem normalize_shapes :
  (∀ (data : value) (raws : list value),
     payload_array data = Some raws →
     Forall (λ raw, nullish raw = false) raws →
     ∃ out, normalize data = Some out ∧
            length out = length raws ∧
            Forall2 (λ raw o,
                       field o "id" = js_or (get raw "alert_id") (get raw "id") ∧
                       id_nonempty (field o "id")
                       = truthy (get raw "alert_id") || id_nonempty (get raw "id"))
                    raws out) ∧
  (∀ data : value, payload_array data = None → normalize data = Some []).
Proof.
  split.
  - intros data raws Hshape Hall.
    destruct (mapM_normalize_alert raws Hall) as (out & Hout & Hrel).
    exists out. split; [| split].
    + rewrite (normalize_payload_array _ _ Hshape). exact Hout.
    + symmetry. eapply Forall2_length, Hrel.
    + eapply Forall2_impl; [exact Hrel |].
      intros raw o Ho; simpl in Ho.
      pose proof (normalize_alert_id _ _ Ho) as Hid.
      split; [exact Hid |]. rewrite Hid. apply id_nonempty_js_or.
  - exact normalize_other_shape.
Qed.

Lemma normalize_shapes_witness :
  (∃ out, normalize scenario_payload = Some out ∧ length out = 2) ∧
  normalize VUndefined = Some [].
Proof.
  split.
  - destruct (proj1 normalize_shapes scenario_payload (elements scenario_payload))
      as (out & Hout & Hlen & _).
    + reflexivity.
    + repeat constructor.
    + exists out. split; [exact Hout | exact Hlen].
  - apply (proj2 normalize_shapes). reflexivity.
Defined.

(** C4, as stated, fails: on [{alert_id:'', id:'x', is_acknowledged:false,
    acknowledged:true}] the code resolves [id] to ['x'] and
    [is_acknowledged] to [true], where [??] gives [''] and [false]. *)
Lemma field_resolution_is_not_nullish :
  ∃ o, normalize_alert falsy_fields_alert = Some o ∧
       field o "id" = VStr "x" ∧
       spec_id falsy_fields_alert = VStr EmptyString ∧
       field o "is_acknowledged" = VBool true ∧
       spec_isAcknowledged falsy_fields_alert = VBool false.
Proof. eexists. split; [reflexivity |]. repeat split; reflexivity. Qed.

(** C4 (amended): for every raw element other than [null], the canonical
    record has [id = raw.alert_id || raw.id] (a falsy [alert_id] falls
    through to [raw.id]), [is_acknowledged = raw.is_acknowledged ||
    raw.acknowledged || false] (so [is_acknowledged:false] with
    [acknowledged:true] yields [true]), and every other property of the raw
    element unchanged. *)
Theorem normalize_alert_fields (raw : value) :
  nullish raw = false →
  ∃ o, normalize_alert raw = Some o ∧
       field o "id" = js_or (get raw "alert_id") (get raw "id") ∧
       field o "is_acknowledged"
       = js_or (js_or (get raw "is_acknowledged") (get raw "acknowledged"))
               (VBool false) ∧
       ∀ k : string, k ≠ "id" → k ≠ "is_acknowledged" → o !! k = spread raw !! k.
Proof.
  intros Hraw. eexists. split; [apply normalize_alert_Some, Hraw |].
  unfold field. split; [| split].
  - rewrite lookup_insert_ne by discriminate. rewrite lookup_insert_eq. reflexivity.
  - rewrite lookup_insert_eq. reflexivity.
  - intros k Hid Hack. rewrite !lookup_insert_ne by congruence. reflexivity.
Qed.

Lemma normalize_alert_fields_witness :
  ∃ o, normalize_alert falsy_fields_alert = Some o ∧
       o !! "acknowledged" = Some (VBool true).
Proof.
  destruct (normalize_alert_fields falsy_fields_alert) as (o & Ho & _ & _ & Hrest).
  - reflexivity.
  - exists o. split; [exact Ho |]. rewrite Hrest by discriminate. reflexivity.
Defined.

(** ** Classification and derived views *)

Section Classifier.
Context `{Runtime}.

Lemma js_ge_spec (v : value) (c : Q) :
  js_ge v c = true ↔ ∃ q, to_number v = Some q ∧ (c <= q)%Q.
Proof.
  unfold js_ge. destruct (to_number v) as [q |].
  - rewrite Qle_bool_iff. split.
    + intros Hle. exists q. split; [reflexivity | exact Hle].
    + intros (q' & [= <-] & Hle). exact Hle.
  - split; [discriminate | intros (q & Hq & _); discriminate].
Qed.

Lemma js_lt_spec (v : value) (c : Q) :
  js_lt v c = true ↔ ∃ q, to_number v = Some q ∧ (q < c)%Q.
Proof.
  unfold js_lt. destruct (to_number v) as [q |].
  - rewrite negb_true_iff, <- not_true_iff_false, Qle_bool_iff. split.
    + intros Hnle. exists q. split; [reflexivity |]. apply Qnot_le_lt, Hnle.
    + intros (q' & [= <-] & Hlt). apply Qlt_not_le, Hlt.
  - split; [discriminate | intros (q & Hq & _); discriminate].
Qed.

(** A falsy value is, as a number, zero or [NaN]: it is not above a positive
    bound.  This is why the guard [alert.risk_score && ...] of the views does
    not change which alerts they keep. *)
Lemma falsy_not_ge (v : value) (c : Q) :
  (0 < c)%Q → truthy v = false → js_ge v c = false.
Proof.
  intros Hc Hv. apply not_true_iff_false. rewrite js_ge_spec.
  intros (q & Hq & Hle).
  assert (Hzero : (q == 0)%Q).
  { destruct v as [| | b | q' | s | l | m]; simpl in *;
      try discriminate.
    - injection Hq as <-. reflexivity.
    - destruct b; [discriminate |]. injection Hq as <-. reflexivity.
    - injection Hq as <-. apply Qeq_bool_iff.
      apply negb_false_iff, Hv.
    - apply negb_false_iff in Hv. rewrite Hv in Hq.
      injection Hq as <-. reflexivity. }
  rewrite Hzero in Hle. exact (Qlt_not_le _ _ Hc Hle).
Qed.

Lemma guarded_ge (v : value) (c : Q) :
  (0 < c)%Q → truthy (js_and v (VBool (js_ge v c))) = js_ge v c.
Proof.
  intros Hc. unfold js_and. destruct (truthy v) eqn:Hv; [reflexivity |].
  rewrite Hv. symmetry. apply falsy_not_ge; assumption.
Qed.

(** The two predicates of the views as plain booleans. *)
Lemma is_critical_bool (a : obj) :
  is_critical a
  = strict_eq (field a "severity") (PStr "critical")
    || js_ge (field a "risk_score") lit_0_8.
Proof.
  unfold is_critical, js_or; simpl.
  destruct (strict_eq (field a "severity") (PStr "critical")); simpl;
    [reflexivity |].
  apply guarded_ge. reflexivity.
Qed.

Lemma is_high_bool (a : obj) :
  is_high a
  = strict_eq (field a "severity") (PStr "high")
    || (js_ge (field a "risk_score") lit_0_6
        && js_lt (field a "risk_score") lit_0_8).
Proof.
  unfold is_high, js_or; simpl.
  destruct (strict_eq (field a "severity") (PStr "high")); simpl;
    [reflexivity |].
  rewrite truthy_js_and_bool, guarded_ge by reflexivity. reflexivity.
Qed.

Lemma is_critical_spec (a : obj) :
  is_critical a = true ↔ severity_is a "critical" ∨ risk_at_least a lit_0_8.
Proof.
  unfold severity_is, risk_at_least.
  rewrite is_critical_bool, orb_true_iff, strict_eq_str, js_ge_spec.
  reflexivity.
Qed.

Lemma is_high_spec (a : obj) :
  is_high a = true ↔
  severity_is a "high" ∨ (risk_at_least a lit_0_6 ∧ risk_below a lit_0_8).
Proof.
  unfold severity_is, risk_at_least, risk_below.
  rewrite is_high_bool, orb_true_iff, andb_true_iff, strict_eq_str,
    js_ge_spec, js_lt_spec.
  reflexivity.
Qed.

Lemma elem_of_filter_bool {A} (f : A → bool) (l : list A) (x : A) :
  x ∈ List.filter f l ↔ x ∈ l ∧ f x = true.
Proof. rewrite !list_elem_of_In. apply filter_In. Qed.

(** C5: an alert belongs to [criticalAlerts] exactly when it is in the Store
    and its severity tag equals 'critical' or its risk score is >= 0.8; it
    belongs to [highRiskAlerts] exactly when it is in the Store and its
    severity tag equals 'high' or its risk score is in [0.6, 0.8).  The two
    tiers overlap: [{severity:'high', risk_score:0.9}] satisfies both
    predicates. *)
Theorem tier_views_membership (s : store) (a : obj) :
  (a ∈ criticalAlerts s ↔
   a ∈ alerts s ∧ (severity_is a "critical" ∨ risk_at_least a lit_0_8)) ∧
  (a ∈ highRiskAlerts s ↔
   a ∈ alerts s ∧
   (severity_is a "high" ∨ (risk_at_least a lit_0_6 ∧ risk_below a lit_0_8))) ∧
  (is_critical overlap_alert = true ∧ is_high overlap_alert = true).
Proof.
  unfold criticalAlerts, highRiskAlerts.
  rewrite !elem_of_filter_bool, is_critical_spec, is_high_spec.
  split; [reflexivity |]. split; [reflexivity |].
  split; vm_compute; reflexivity.
Qed.

(** The status filter of the Alerts page keeps the same alerts as the views
    of the provider when the risk score is a number... *)
Lemma status_filter_numeric (a : obj) (q : Q) :
  field a "risk_score" = VNum q →
  status_filter "critical" a = is_critical a ∧
  status_filter "high" a = is_high a.
Proof.
  intros Hq. rewrite is_critical_bool, is_high_bool.
  unfold status_filter, js_ge, js_lt. rewrite Hq; simpl.
  destruct (strict_eq (field a "severity") (PStr "critical")),
           (strict_eq (field a "severity") (PStr "high")),
           (Qle_bool lit_0_6 q), (Qle_bool lit_0_8 q);
    split; reflexivity.
Qed.

(** ... but not when the alert has no risk score: [undefined < 0.8] is
    false, so the page keeps the alert under every tier filter, while the
    views of the provider leave it out. *)
Lemma status_filter_without_score (a : obj) (tag : string) :
  a !! "risk_score" = None →
  status_filter "critical" a = true ∧ status_filter "high" a = true ∧
  status_filter "medium" a = true ∧
  (field a "severity" = VStr tag → tag ≠ "critical" → is_critical a = false) ∧
  (field a "severity" ≠ VStr "critical" → is_critical a = false).
Proof.
  intros Hnone.
  assert (Hr : field a "risk_score" = VUndefined).
  { unfold field. rewrite Hnone. reflexivity. }
  assert (Hcrit : field a "severity" ≠ VStr "critical" → is_critical a = false).
  { intros Hne. rewrite is_critical_bool, Hr. unfold js_ge; simpl.
    rewrite orb_false_r. apply not_true_iff_false.
    rewrite strict_eq_str. exact Hne. }
  unfold status_filter, js_ge, js_lt. rewrite Hr; simpl.
  rewrite !andb_false_r; simpl.
  repeat split.
  - intros Hs Htag. apply Hcrit. rewrite Hs. intros [= ->]. contradiction.
  - exact Hcrit.
Qed.

Lemma length_filter_partition {A} (f : A → bool) (l : list A) :
  length (List.filter (λ x, negb (f x)) l) + length (List.filter f l) = length l.
Proof.
  induction l as [| x l IH]; simpl; [reflexivity |].
  destruct (f x); simpl; lia.
Qed.

(** C9: after the fetch issued at mount is answered with
    [[{id:'a1', risk_score:0.85, is_acknowledged:false},
      {id:'a2', severity:'medium', is_acknowledged:true}]]
    (bare, or wrapped as [{alerts: ...}]), the stats are
    [{total:2, active:1, critical:1, highRisk:0, acknowledged:1}]. *)
Theorem stats_scenario (now : time) :
  (∃ m, run [Mount; Reply 0 (Fulfilled scenario_payload) now] init = Some m ∧
        stats (st m) = Stats 2 1 1 0 1) ∧
  (∃ m, run [Mount;
             Reply 0 (Fulfilled (VObj {["alerts" := scenario_payload]})) now]
            init = Some m ∧
        stats (st m) = Stats 2 1 1 0 1).
Proof.
  split; (eexists; split; [reflexivity | vm_compute; reflexivity]).
Qed.

(** C10: in every Store state, hence in every reachable one and after every
    operation, [activeAlerts] and [acknowledgedAlerts] are disjoint, cover
    the alert list (which is a permutation of the one followed by the
    other), and [stats.active + stats.acknowledged = stats.total]. *)
Theorem active_acknowledged_partition (s : store) :
  active (stats s) + acknowledged (stats s) = total (stats s) ∧
  alerts s ≡ₚ activeAlerts s ++ acknowledgedAlerts s ∧
  (∀ a, a ∈ alerts s ↔ a ∈ activeAlerts s ∨ a ∈ acknowledgedAlerts s) ∧
  (∀ a, ¬ (a ∈ activeAlerts s ∧ a ∈ acknowledgedAlerts s)).
Proof.
  unfold stats, activeAlerts, acknowledgedAlerts; simpl.
  split; [apply (length_filter_partition is_acknowledged) |].
  split; [| split].
  - induction (alerts s) as [| a l IH]; simpl; [reflexivity |].
    unfold is_active at 1, is_acknowledged at 1.
    destruct (truthy (field a "is_acknowledged")); simpl.
    + rewrite IH at 1. apply Permutation_middle.
    + rewrite IH at 1. reflexivity.
  - intros a. rewrite !elem_of_filter_bool. unfold is_active, is_acknowledged.
    destruct (truthy (field a "is_acknowledged")); simpl; intuition discriminate.
  - intros a. rewrite !elem_of_filter_bool. unfold is_active, is_acknowledged.
    destruct (truthy (field a "is_acknowledged")); simpl; intuition discriminate.
Qed.

End Classifier.

(** ** The machine: fetching *)

Lemma mounted_reachable : run [Mount] init = Some mounted.
Proof. reflexivity. Qed.

Lemma in_flight_fetch_start (c : caller) (m : machine) :
  in_flight (fetch_start c m) = S (in_flight m).
Proof.
  unfold in_flight, fetch_start; simpl.
  rewrite List.filter_app, length_app; simpl. lia.
Qed.

Lemma run_app (es1 es2 : list event) (m : machine) :
  run (es1 ++ es2) m = run es1 m ≫= run es2.
Proof.
  revert m. induction es1 as [| e es1 IH]; intros m; simpl; [reflexivity |].
  destruct (step e m) as [m' |]; simpl; [apply IH | reflexivity].
Qed.

Lemma refresh_n_times (n : nat) (m : machine) :
  ∃ m', run (repeat Refresh n) m = Some m' ∧ in_flight m' = n + in_flight m.
Proof.
  revert m. induction n as [| n IH]; intros m; simpl.
  - exists m. split; reflexivity.
  - destruct (IH (fetch_start Direct m)) as (m' & Hrun & Hcount).
    exists m'. split; [exact Hrun |].
    rewrite Hcount, in_flight_fetch_start. lia.
Qed.

(** C1, as stated, fails.  The first fetch is answered, an alert is
    acknowledged, and the reconciliation fetch scheduled by
    [setTimeout(..., 500)] starts: [loading] is true and one fetch is in
    flight.  The polling timer then fires and starts a second fetch; a
    manual refresh would do the same. *)
Lemma overlapping_fetches :
  ∃ m1 m2 m3,
    run [Mount; Reply 0 (Fulfilled scenario_payload) 1%Z;
         Acknowledge (PStr "a1"); Reply 0 (Fulfilled VUndefined) 2%Z;
         TimeoutFire] init = Some m1 ∧
    loading (st m1) = true ∧ in_flight m1 = 1 ∧
    step IntervalFire m1 = Some m2 ∧ in_flight m2 = 2 ∧
    step Refresh m1 = Some m3 ∧ in_flight m3 = 2.
Proof. do 3 eexists. repeat split; reflexivity. Qed.

(** With two fetches in flight, the first one to settle clears [loading]
    while the other is still in flight. *)
Lemma loading_cleared_while_in_flight :
  ∃ m, run [Mount; Refresh; Reply 0 Rejected 1%Z] init = Some m ∧
       loading (st m) = false ∧ in_flight m = 1.
Proof. eexists. repeat split; reflexivity. Qed.

(** C1 (amended): there is no single-flight guard.  A manual refresh, and a
    fire of the polling timer while the interval is registered, start a new
    fetch whatever the value of [loading] and however many fetches are in
    flight: each one sets [loading], issues a request and raises the number
    of fetches in flight by one, so that any number of fetches can be in
    flight at once. *)
Theorem fetch_triggers_unguarded (m : machine) (n : nat) :
  step Refresh m = Some (fetch_start Direct m) ∧
  step IntervalFire m = (if interval m then Some (fetch_start Direct m) else None) ∧
  in_flight (fetch_start Direct m) = S (in_flight m) ∧
  loading (st (fetch_start Direct m)) = true ∧
  emitted Refresh m = Some [ESetLoading true; ESetError None; ECall GetActiveAlerts] ∧
  ∃ m', run (repeat Refresh n) m = Some m' ∧ in_flight m' = n + in_flight m.
Proof.
  split; [reflexivity |]. split; [reflexivity |].
  split; [apply in_flight_fetch_start |]. split; [reflexivity |].
  split; [| apply refresh_n_times].
  unfold emitted; simpl. rewrite drop_app_length. reflexivity.
Qed.

Lemma apply_effects_app (es1 es2 : list effect) (s : store) :
  apply_effects (es1 ++ es2) s = apply_effects es2 (apply_effects es1 s).
Proof. unfold apply_effects. apply foldl_app. Qed.

Lemma trace_resume (t : task) (r : reply) (now : time) (m : machine) :
  ∃ es, trace (resume t r now m) = trace m ++ es ∧
        ∀ tr itv, 
          trace (resume t r now (Machine (st m) (pending m) itv (timeouts m) tr))
          = tr ++ es ∧
          st (resume t r now (Machine (st m) (pending m) itv (timeouts m) tr))
          = st (resume t r now m).
Proof.
  destruct t as [c | alertId | alertId]; simpl.
  - eexists. split; [reflexivity |]. intros; split; reflexivity.
  - destruct r; simpl.
    + eexists. split; [reflexivity |]. intros; split; reflexivity.
    + eexists. split; [reflexivity |]. intros; split; reflexivity.
  - destruct r; simpl.
    + eexists. split; [reflexivity |]. intros; split; reflexivity.
    + eexists. split; [reflexivity |]. intros; split; reflexivity.
Qed.

(** C2, as stated, fails: the fetch started at mount is answered after the
    provider was unmounted, and its continuation still calls [setAlerts],
    [setLastUpdated] and [setLoading] after [clearInterval]; the alert list
    goes from empty to two alerts. *)
Lemma write_after_unmount :
  ∃ m, run [Mount; Unmount; Reply 0 (Fulfilled scenario_payload) 7%Z] init = Some m ∧
       trace m = [ESetLoading true; ESetError None; ECall GetActiveAlerts;
                  ESetInterval 30000; EClearInterval;
                  ESetAlerts (alerts (st m)); ESetLastUpdated 7%Z;
                  ESetLoading false; EReturn (RAlerts (alerts (st m)))] ∧
       length (alerts (st m)) = 2 ∧
       lastUpdated (st m) = Some 7%Z.
Proof. eexists. split; [reflexivity |]. repeat split; reflexivity. Qed.

(** C2 (amended): unmounting only clears the polling interval, so that the
    timer fires no more; it leaves the Store, the pending calls and the
    scheduled timeouts as they are.  A call in flight at unmount is neither
    cancelled nor guarded: when it settles, its continuation issues the same
    writes, with the same result on the Store, as if the provider had stayed
    mounted; for a fetch these are [setAlerts], [setLastUpdated] and
    [setLoading(false)] on success, [setError] and [setLoading(false)] on
    failure. *)
Theorem unmount_only_stops_timer (m : machine) (i : nat) (r : reply) (now : time) :
  st (unmount m) = st m ∧
  pending (unmount m) = pending m ∧
  timeouts (unmount m) = timeouts m ∧
  step IntervalFire (unmount m) = None ∧
  emitted (Reply i r now) (unmount m) = emitted (Reply i r now) m ∧
  st <$> step (Reply i r now) (unmount m) = st <$> step (Reply i r now) m ∧
  (pending m !! i = Some (TFetch Direct) →
   emitted (Reply i r now) (unmount m) = Some (fetch_effects r now) ∧
   st <$> step (Reply i r now) (unmount m)
   = Some (apply_effects (fetch_effects r now) (st m))).
Proof.
  repeat (split; [reflexivity |]).
  assert (Hem : emitted (Reply i r now) (unmount m) = emitted (Reply i r now) m).
  { unfold emitted, step; simpl.
    destruct (pending m !! i) as [t |]; [| reflexivity]. f_equal.
    destruct (trace_resume t r now
                (Machine (st m) (delete i (pending m)) (interval m)
                         (timeouts m) (trace m))) as (es & Hes & Hany).
    simpl in *. rewrite Hes, drop_app_length.
    rewrite (proj1 (Hany (trace m ++ [EClearInterval]) false)).
    rewrite drop_app_length. reflexivity. }
  assert (Hst : st <$> step (Reply i r now) (unmount m)
                = st <$> step (Reply i r now) m).
  { unfold step; simpl.
    destruct (pending m !! i) as [t |]; [| reflexivity]. simpl. f_equal.
    destruct (trace_resume t r now
                (Machine (st m) (delete i (pending m)) (interval m)
                         (timeouts m) (trace m))) as (es & Hes & Hany).
    simpl in *. apply (Hany (trace m ++ [EClearInterval]) false). }
  split; [exact Hem |]. split; [exact Hst |].
  intros Hi. rewrite Hem, Hst. unfold emitted, step. rewrite Hi; simpl.
  rewrite app_nil_r, drop_app_length. split; reflexivity.
Qed.

Lemma unmount_only_stops_timer_witness :
  emitted (Reply 0 Rejected 7%Z) (unmount mounted)
  = Some [ESetError (Some "Failed to load alerts"); ESetLoading false;
          EReturn (RAlerts [])].
Proof.
  apply (proj2 (proj2 (proj2 (proj2 (proj2 (proj2
           (unmount_only_stops_timer mounted 0 Rejected 7%Z))))))).
  reflexivity.
Defined.

(** What the [catch] and [finally] blocks do when the request is rejected
    or the normalisation throws. *)
Lemma fetch_failure_catch
    (m : machine) (i : nat) (c : caller) (r : reply) (now : time) :
  pending m !! i = Some (TFetch c) →
  fetch_fails r = true →
  ∃ m', step (Reply i r now) m = Some m' ∧
        alerts (st m') = alerts (st m) ∧
        error (st m') = Some "Failed to load alerts"%string ∧
        loading (st m') = false ∧
        lastUpdated (st m') = lastUpdated (st m) ∧
        fetch_effects r now
        = [ESetError (Some "Failed to load alerts"%string); ESetLoading false;
           EReturn (RAlerts [])].
Proof.
  intros Hi Hfail.
  assert (Hes : fetch_effects r now
                = [ESetError (Some "Failed to load alerts"%string);
                   ESetLoading false; EReturn (RAlerts [])]).
  { unfold fetch_effects, fetch_fails in *. destruct r as [data |]; [| reflexivity].
    destruct (normalize data); [discriminate | reflexivity]. }
  unfold step. rewrite Hi. eexists. split; [reflexivity |].
  simpl. rewrite Hes. destruct c; repeat split; reflexivity.
Qed.

(** What lines 305-323 do with a fulfilled response that is neither an
    object with an [alerts] array nor an array. *)
Lemma fetch_other_shape
    (m : machine) (i : nat) (c : caller) (data : value) (now : time) :
  pending m !! i = Some (TFetch c) →
  payload_array data = None →
  ∃ m', step (Reply i (Fulfilled data) now) m = Some m' ∧
        alerts (st m') = [] ∧
        error (st m') = error (st m) ∧
        loading (st m') = false ∧
        lastUpdated (st m') = Some now ∧
        fetch_effects (Fulfilled data) now
        = [ESetAlerts []; ESetLastUpdated now; ESetLoading false;
           EReturn (RAlerts [])].
Proof.
  intros Hi Hshape.
  unfold step. rewrite Hi. eexists. split; [reflexivity |].
  simpl. rewrite (normalize_other_shape data Hshape).
  destruct c; repeat split; reflexivity.
Qed.

Lemma polling_reachable :
  run [Mount; Reply 0 (Fulfilled scenario_payload) 1%Z; IntervalFire] init
  = Some polling.
Proof. reflexivity. Qed.

(** C6, as stated, fails on a parse error.  The Store holds the two alerts
    of the scenario and a fetch is in flight; its response has a body that is
    not JSON, so that the call is fulfilled with the text of the body.  The
    alert list is replaced by the empty list and no error is recorded. *)
Lemma unparsed_body_clears_alerts :
  ∃ m',
    run [Mount; Reply 0 (Fulfilled scenario_payload) 1%Z; IntervalFire] init
    = Some polling ∧
    length (alerts (st polling)) = 2 ∧
    step (Reply 0 (Fulfilled unparsed_body) 7%Z) polling = Some m' ∧
    alerts (st m') = [] ∧
    error (st m') = None ∧
    loading (st m') = false ∧
    lastUpdated (st m') = Some 7%Z.
Proof. eexists. repeat split; reflexivity. Qed.

(** C6 (amended): when the request of a fetch is rejected (network error,
    bad status) or the normalisation of its payload throws, the alert list
    is left exactly as it was, the error message 'Failed to load alerts' is
    recorded, [loading] is cleared and [lastUpdated] is not touched: the only
    writes are [setError] and [setLoading(false)], and starting the fetch did
    not touch the alert list either.  A body that could not be parsed does
    not fail the fetch: it arrives as a fulfilled response whose data is a
    string, and such a payload, like any other that is neither an array nor
    an object with an [alerts] array, replaces the alert list by the empty
    list, sets [lastUpdated], clears [loading] and records no error. *)
Theorem fetch_failure_outcomes
    (m : machine) (i : nat) (c : caller) (r : reply) (now : time) :
  pending m !! i = Some (TFetch c) →
  alerts (st (fetch_start c m)) = alerts (st m) ∧
  (fetch_fails r = true →
   ∃ m', step (Reply i r now) m = Some m' ∧
         alerts (st m') = alerts (st m) ∧
         error (st m') = Some "Failed to load alerts"%string ∧
         loading (st m') = false ∧
         lastUpdated (st m') = lastUpdated (st m) ∧
         emitted (Reply i r now) m
         = Some ([ESetError (Some "Failed to load alerts"%string);
                  ESetLoading false; EReturn (RAlerts [])]
                 ++ match c with
                    | Direct => []
                    | FromCatch => [EReturn (RBool false)]
                    end)) ∧
  (∀ data : value,
     r = Fulfilled data → payload_array data = None →
     ∃ m', step (Reply i r now) m = Some m' ∧
           alerts (st m') = [] ∧
           error (st m') = error (st m) ∧
           loading (st m') = false ∧
           lastUpdated (st m') = Some now ∧
           emitted (Reply i r now) m
           = Some ([ESetAlerts []; ESetLastUpdated now; ESetLoading false;
                    EReturn (RAlerts [])]
                   ++ match c with
                      | Direct => []
                      | FromCatch => [EReturn (RBool false)]
                      end)) ∧
  (∀ body : string, payload_array (VStr body) = None).
Proof.
  intros Hi. split; [reflexivity |].
  assert (Hem : emitted (Reply i r now) m
                = Some (fetch_effects r now
                        ++ match c with
                           | Direct => []
                           | FromCatch => [EReturn (RBool false)]
                           end)).
  { unfold emitted, step. rewrite Hi. simpl. rewrite drop_app_length. reflexivity. }
  split; [| split; [| reflexivity]].
  - intros Hfail.
    destruct (fetch_failure_catch m i c r now Hi Hfail)
      as (m' & Hstep & Ha & He & Hl & Hu & Hes).
    exists m'. rewrite Hem, Hes. repeat split; assumption.
  - intros data -> Hshape.
    destruct (fetch_other_shape m i c data now Hi Hshape)
      as (m' & Hstep & Ha & He & Hl & Hu & Hes).
    exists m'. rewrite Hem, Hes. repeat split; assumption.
Qed.

Lemma fetch_failure_outcomes_witness :
  (∃ m', step (Reply 0 Rejected 7%Z) polling = Some m' ∧
         alerts (st m') = alerts (st polling) ∧
         length (alerts (st m')) = 2 ∧
         error (st m') = Some "Failed to load alerts"%string) ∧
  (∃ m', step (Reply 0 (Fulfilled (VArr [VNull])) 7%Z) polling = Some m' ∧
         length (alerts (st m')) = 2 ∧
         loading (st m') = false) ∧
  (∃ m', step (Reply 0 (Fulfilled unparsed_body) 7%Z) polling = Some m' ∧
         alerts (st m') = []).
Proof.
  pose proof (fetch_failure_outcomes polling 0 Direct Rejected 7%Z eq_refl)
    as (_ & Hrej & _ & _).
  pose proof (fetch_failure_outcomes polling 0 Direct
                (Fulfilled (VArr [VNull])) 7%Z eq_refl) as (_ & Hthrow & _ & _).
  pose proof (fetch_failure_outcomes polling 0 Direct
                (Fulfilled unparsed_body) 7%Z eq_refl) as (_ & _ & Hbody & _).
  split; [| split].
  - destruct (Hrej eq_refl) as (m' & Hstep & Halerts & Herr & _).
    exists m'. split; [exact Hstep |]. split; [exact Halerts |].
    split; [rewrite Halerts; reflexivity | exact Herr].
  - destruct (Hthrow eq_refl) as (m' & Hstep & Halerts & _ & Hload & _).
    exists m'. split; [exact Hstep |].
    split; [rewrite Halerts; reflexivity | exact Hload].
  - destruct (Hbody unparsed_body eq_refl eq_refl) as (m' & Hstep & Halerts & _).
    exists m'. split; [exact Hstep | exact Halerts].
Defined.

(** ** The machine: mutations *)

Lemma acknowledge_one_spec (alertId : prim) (a : obj) :
  if strict_eq (field a "id") alertId
  then field (acknowledge_one alertId a) "is_acknowledged" = VBool true ∧
       ∀ k : string, k ≠ "is_acknowledged" →
                     acknowledge_one alertId a !! k = a !! k
  else acknowledge_one alertId a = a.
Proof.
  unfold acknowledge_one.
  destruct (strict_eq (field a "id") alertId); [| reflexivity].
  split.
  - unfold field. rewrite lookup_insert_eq. reflexivity.
  - intros k Hk. rewrite lookup_insert_ne by congruence. reflexivity.
Qed.

(** Acknowledging the same id again changes nothing. *)
Lemma acknowledge_one_idempotent (alertId : prim) (a : obj) :
  acknowledge_one alertId (acknowledge_one alertId a) = acknowledge_one alertId a.
Proof.
  unfold acknowledge_one.
  destruct (strict_eq (field a "id") alertId) eqn:E; [| rewrite E; reflexivity].
  assert (Hid : field (<["is_acknowledged" := VBool true]> a) "id" = field a "id").
  { unfold field. rewrite lookup_insert_ne by discriminate. reflexivity. }
  rewrite Hid, E. apply insert_insert_eq.
Qed.

(** Acknowledging is idempotent on the Store: a second
    [acknowledgeAlert] with the same id leaves the alert list exactly as the
    first one left it. *)
Lemma acknowledge_twice (m : machine) (alertId : prim) :
  ∃ m1 m2, step (Acknowledge alertId) m = Some m1 ∧
           step (Acknowledge alertId) m1 = Some m2 ∧
           alerts (st m2) = alerts (st m1).
Proof.
  do 2 eexists. split; [reflexivity |]. split; [reflexivity |]. simpl.
  rewrite <- list_fmap_compose. apply list_fmap_ext.
  intros i a _. apply acknowledge_one_idempotent.
Qed.

(** Dismissing removes every alert with that id from the Store, hence from
    every derived view. *)
Lemma dismiss_removes (m : machine) (alertId : prim) (a : obj) :
  ∃ m', step (Dismiss alertId) m = Some m' ∧
        (a ∈ alerts (st m') ↔
         a ∈ alerts (st m) ∧ strict_eq (field a "id") alertId = false).
Proof.
  eexists. split; [reflexivity |]. simpl.
  rewrite elem_of_filter_bool. unfold keep_on_dismiss.
  rewrite negb_true_iff. reflexivity.
Qed.

(** C7: [acknowledgeAlert(alertId)] first writes the edited list to the
    Store and only then issues the remote call.  The edited list has the
    same length; at every position, an alert whose id is strictly equal to
    [alertId] gets [is_acknowledged = true] and keeps every other property,
    and any other alert is unchanged.  [loading], [error] and [lastUpdated]
    are unchanged. *)
Theorem acknowledge_optimistic (m : machine) (alertId : prim) :
  ∃ m', step (Acknowledge alertId) m = Some m' ∧
        trace m' = trace m ++ [ESetAlerts (alerts (st m'));
                               ECall (AcknowledgeAlert alertId)] ∧
        pending m' = pending m ++ [TAcknowledge alertId] ∧
        loading (st m') = loading (st m) ∧
        error (st m') = error (st m) ∧
        lastUpdated (st m') = lastUpdated (st m) ∧
        length (alerts (st m')) = length (alerts (st m)) ∧
        ∀ (i : nat) (a : obj),
          alerts (st m) !! i = Some a →
          ∃ a', alerts (st m') !! i = Some a' ∧
                if strict_eq (field a "id") alertId
                then field a' "is_acknowledged" = VBool true ∧
                     ∀ k : string, k ≠ "is_acknowledged" → a' !! k = a !! k
                else a' = a.
Proof.
  eexists. split; [reflexivity |]. simpl.
  repeat (split; [reflexivity |]).
  split; [apply length_fmap |].
  intros i a Hi. exists (acknowledge_one alertId a). split.
  - rewrite list_lookup_fmap, Hi. reflexivity.
  - apply acknowledge_one_spec.
Qed.

Lemma mutation_contract_holds
    (e : event) (c : api_call) (t : task) (edited : list obj) (m : machine) :
  is_fetch t = false →
  step e m = Some (Machine (setAlerts edited (st m)) (pending m ++ [t])
                           (interval m) (timeouts m)
                           (trace m ++ [ESetAlerts edited; ECall c])) →
  mutation_contract e c edited m.
Proof.
  intros Ht He. unfold mutation_contract. cbv zeta. split.
  - intros d now. eexists. unfold run. rewrite He.
    unfold step; simpl. rewrite list_lookup_middle by reflexivity.
    split; [reflexivity |].
    destruct t as [c' | id | id]; [discriminate | |]; simpl;
      (split; [reflexivity |]); rewrite <- app_assoc; reflexivity.
  - intros now now' r'. do 2 eexists. unfold run. rewrite He.
    unfold step at 1; simpl. rewrite list_lookup_middle by reflexivity.
    split; [reflexivity |].
    assert (Hdel : delete (length (pending m)) (pending m ++ [t]) = pending m).
    { rewrite delete_middle. apply app_nil_r. }
    destruct t as [c' | id | id]; [discriminate | |]; simpl; rewrite Hdel;
      (split; [reflexivity |]); (split; [reflexivity |]);
      (split; [rewrite <- app_assoc; reflexivity |]);
      unfold step; simpl; rewrite list_lookup_middle by reflexivity;
      (split; [reflexivity |]); simpl; reflexivity.
Qed.


(** ** The pages: tiers, cards, filters and vital signs *)

Section Pages.
Context `{Runtime}.

Lemma truthy_js_or_bool (b : bool) (v : value) :
  truthy (js_or (VBool b) v) = b || truthy v.
Proof. unfold js_or; simpl. destruct b; reflexivity. Qed.

Lemma Qle_bool_mono (c1 c2 q : Q) :
  (c1 <= c2)%Q → Qle_bool c2 q = true → Qle_bool c1 q = true.
Proof.
  rewrite !Qle_bool_iff. intros H12 H2. apply Qle_trans with c2; assumption.
Qed.

Lemma lit_0_4_le_0_6 : (lit_0_4 <= lit_0_6)%Q.
Proof. unfold Qle; simpl. lia. Qed.

Lemma lit_0_6_le_0_8 : (lit_0_6 <= lit_0_8)%Q.
Proof. unfold Qle; simpl. lia. Qed.

(** The comparisons of a value with the three thresholds, by its numeric
    value: all false on [NaN]; otherwise the number lies in exactly one of
    the four intervals cut at 0.4, 0.6 and 0.8. *)
Inductive tier_case (v : value) : Prop :=
| tier_nan :
    to_number v = None →
    js_ge v lit_0_8 = false → js_ge v lit_0_6 = false → js_ge v lit_0_4 = false →
    js_lt v lit_0_8 = false → js_lt v lit_0_6 = false → js_lt v lit_0_4 = false →
    tier_case v
| tier_critical (q : Q) :
    to_number v = Some q →
    js_ge v lit_0_8 = true → js_ge v lit_0_6 = true → js_ge v lit_0_4 = true →
    js_lt v lit_0_8 = false → js_lt v lit_0_6 = false → js_lt v lit_0_4 = false →
    tier_case v
| tier_high (q : Q) :
    to_number v = Some q →
    js_ge v lit_0_8 = false → js_ge v lit_0_6 = true → js_ge v lit_0_4 = true →
    js_lt v lit_0_8 = true → js_lt v lit_0_6 = false → js_lt v lit_0_4 = false →
    tier_case v
| tier_medium (q : Q) :
    to_number v = Some q →
    js_ge v lit_0_8 = false → js_ge v lit_0_6 = false → js_ge v lit_0_4 = true →
    js_lt v lit_0_8 = true → js_lt v lit_0_6 = true → js_lt v lit_0_4 = false →
    tier_case v
| tier_low (q : Q) :
    to_number v = Some q →
    js_ge v lit_0_8 = false → js_ge v lit_0_6 = false → js_ge v lit_0_4 = false →
    js_lt v lit_0_8 = true → js_lt v lit_0_6 = true → js_lt v lit_0_4 = true →
    tier_case v.

Lemma tier_cases (v : value) : tier_case v.
Proof.
  destruct (to_number v) as [q |] eqn:Hq.
  - pose proof (Qle_bool_mono _ _ q lit_0_6_le_0_8) as M86.
    pose proof (Qle_bool_mono _ _ q lit_0_4_le_0_6) as M64.
    destruct (Qle_bool lit_0_8 q) eqn:E8, (Qle_bool lit_0_6 q) eqn:E6,
             (Qle_bool lit_0_4 q) eqn:E4;
      try (specialize (M86 eq_refl); discriminate);
      try (specialize (M64 eq_refl); discriminate).
    + apply (tier_critical v q); unfold js_ge, js_lt; rewrite Hq, ?E8, ?E6, ?E4; reflexivity.
    + apply (tier_high v q); unfold js_ge, js_lt; rewrite Hq, ?E8, ?E6, ?E4; reflexivity.
    + apply (tier_medium v q); unfold js_ge, js_lt; rewrite Hq, ?E8, ?E6, ?E4; reflexivity.
    + apply (tier_low v q); unfold js_ge, js_lt; rewrite Hq, ?E8, ?E6, ?E4; reflexivity.
  - apply tier_nan; unfold js_ge, js_lt; rewrite ?Hq; reflexivity.
Qed.

(** To reason on the tier of a score: one goal per case, the comparisons
    replaced by their values. *)
Ltac by_tier v :=
  let q := fresh "q" in
  let Hq := fresh "Hq" in
  let G8 := fresh "G8" in
  let G6 := fresh "G6" in
  let G4 := fresh "G4" in
  let L8 := fresh "L8" in
  let L6 := fresh "L6" in
  let L4 := fresh "L4" in
  destruct (tier_cases v) as [Hq G8 G6 G4 L8 L6 L4 | q Hq G8 G6 G4 L8 L6 L4
                             | q Hq G8 G6 G4 L8 L6 L4 | q Hq G8 G6 G4 L8 L6 L4
                             | q Hq G8 G6 G4 L8 L6 L4];
  rewrite ?G8, ?G6, ?G4, ?L8, ?L6, ?L4, ?Hq; simpl.

(** The stat cards of the Alerts page show the same alerts as the views of
    the provider, although their tier predicates do not test the score
    before comparing it. *)
Theorem stat_cards_match_views (s : store) :
  List.filter card_active (alerts s) = activeAlerts s ∧
  List.filter card_critical (alerts s) = criticalAlerts s ∧
  List.filter card_high (alerts s) = highRiskAlerts s ∧
  List.filter card_acknowledged (alerts s) = acknowledgedAlerts s ∧
  length (List.filter card_critical (alerts s)) = critical (stats s) ∧
  length (List.filter card_high (alerts s)) = highRisk (stats s).
Proof.
  assert (Hc : List.filter card_critical (alerts s) = criticalAlerts s).
  { apply List.filter_ext. intros a. symmetry. apply is_critical_bool. }
  assert (Hh : List.filter card_high (alerts s) = highRiskAlerts s).
  { apply List.filter_ext. intros a. symmetry. apply is_high_bool. }
  repeat split; try assumption; try reflexivity.
  - rewrite Hc. reflexivity.
  - rewrite Hh. reflexivity.
Qed.

(** The border colour and the icon of an alert card rank the overlapping
    tiers: red exactly for the alerts of the critical view, yellow exactly
    for those of the high-risk view that are not critical. *)
Theorem severity_color_ranks_tiers (a : obj) :
  let color := getSeverityColor (field a "severity") (field a "risk_score") in
  let icon := getSeverityIcon (field a "severity") (field a "risk_score") in
  (color = "border-red-500 bg-red-50"%string ↔ is_critical a = true) ∧
  (color = "border-yellow-500 bg-yellow-50"%string ↔
   is_high a = true ∧ is_critical a = false) ∧
  (icon = ExclamationTriangleIcon "w-6 h-6 text-red-600" ↔ is_critical a = true) ∧
  (icon = ExclamationTriangleIcon "w-6 h-6 text-yellow-600" ↔
   is_high a = true ∧ is_critical a = false).
Proof.
  cbv zeta. unfold getSeverityColor, getSeverityIcon.
  rewrite is_critical_bool, is_high_bool.
  rewrite !truthy_js_or_bool, !guarded_ge by reflexivity.
  by_tier (field a "risk_score");
    destruct (strict_eq (field a "severity") (PStr "critical")),
             (strict_eq (field a "severity") (PStr "high")),
             (strict_eq (field a "severity") (PStr "medium")); simpl;
    repeat split; try tauto; try discriminate;
    try (intros [? ?]; discriminate).
Qed.

(** The risk badge: label and colour always belong to the same tier, the
    tiers are the intervals cut at 0.4, 0.6 and 0.8, and a score without a
    numeric value is labelled 'Low'. *)
Theorem risk_badge_tiers (r : value) :
  (getRiskLevelText r = "Critical"%string ↔ js_ge r lit_0_8 = true) ∧
  (getRiskLevelText r = "High"%string ↔
   js_ge r lit_0_6 = true ∧ js_lt r lit_0_8 = true) ∧
  (getRiskLevelText r = "Medium"%string ↔
   js_ge r lit_0_4 = true ∧ js_lt r lit_0_6 = true) ∧
  (getRiskLevelText r = "Low"%string ↔
   js_lt r lit_0_4 = true ∨ to_number r = None) ∧
  (getRiskLevelColor r = "text-red-600 bg-red-100"%string ↔
   getRiskLevelText r = "Critical"%string) ∧
  (getRiskLevelColor r = "text-yellow-600 bg-yellow-100"%string ↔
   getRiskLevelText r = "High"%string) ∧
  (getRiskLevelColor r = "text-blue-600 bg-blue-100"%string ↔
   getRiskLevelText r = "Medium"%string) ∧
  (getRiskLevelColor r = "text-green-600 bg-green-100"%string ↔
   getRiskLevelText r = "Low"%string).
Proof.
  unfold getRiskLevelText, getRiskLevelColor.
  by_tier r;
    repeat split; try tauto; try discriminate;
    try (intros [? ?]; discriminate);
    try (intros [? | ?]; discriminate);
    try (intros _; left; reflexivity); try (intros _; right; reflexivity).
Qed.

Lemma getSeverityColor_critical (a : obj) :
  is_critical a = true →
  getSeverityColor (field a "severity") (field a "risk_score")
  = "border-red-500 bg-red-50"%string.
Proof.
  unfold getSeverityColor, is_critical. intros ->. reflexivity.
Qed.

Lemma getRiskLevelText_low (r : value) :
  js_lt r lit_0_4 = true → getRiskLevelText r = "Low"%string.
Proof.
  unfold getRiskLevelText. by_tier r; intros; try discriminate; reflexivity.
Qed.

(** The badge ignores the severity tag: an alert tagged 'critical' whose
    score is below 0.4 has a red border and a badge that says 'Low'. *)
Theorem badge_ignores_severity_tag (a : obj) :
  severity_is a "critical" →
  risk_below a lit_0_4 →
  getSeverityColor (field a "severity") (field a "risk_score")
  = "border-red-500 bg-red-50"%string ∧
  getRiskLevelText (field a "risk_score") = "Low"%string.
Proof.
  intros Hsev Hlow. split.
  - apply getSeverityColor_critical, is_critical_spec. left. exact Hsev.
  - apply getRiskLevelText_low, js_lt_spec. exact Hlow.
Qed.


Lemma js_gt_spec (v : value) (c : Q) :
  js_gt v c = true ↔ ∃ q, to_number v = Some q ∧ (c < q)%Q.
Proof.
  unfold js_gt. destruct (to_number v) as [q |].
  - rewrite negb_true_iff, <- not_true_iff_false, Qle_bool_iff. split.
    + intros Hnle. exists q. split; [reflexivity |]. apply Qnot_le_lt, Hnle.
    + intros (q' & [= <-] & Hlt). apply Qlt_not_le, Hlt.
  - split; [discriminate | intros (q & Hq & _); discriminate].
Qed.

(** The colour of a vital sign against its normal range [min, max]: grey
    for a falsy reading, zero included, even when zero is out of range; red
    exactly when the reading is a number outside the range; and green
    otherwise, in particular for a reading that has no numeric value. *)
Theorem vital_status_cases (v : value) (min max : Q) :
  let status := getVitalStatus v (Some (min, max)) in
  (truthy v = false → status = "text-gray-500"%string) ∧
  getVitalStatus (VNum 0) (Some (min, max)) = "text-gray-500"%string ∧
  (truthy v = true →
   (status = "text-red-600"%string ↔
    ∃ q, to_number v = Some q ∧ ((q < min)%Q ∨ (max < q)%Q)) ∧
   (status = "text-green-600"%string ↔
    ∀ q, to_number v = Some q → (min <= q)%Q ∧ (q <= max)%Q)).
Proof.
  cbv zeta. unfold getVitalStatus. split; [| split].
  - intros ->. reflexivity.
  - reflexivity.
  - intros ->; simpl.
    destruct (js_lt v min) eqn:Hlt; simpl.
    + split.
      * split; [| reflexivity]. intros _.
        apply js_lt_spec in Hlt as (q & Hq & Hlt). exists q. tauto.
      * split; [discriminate |]. intros Hall.
        apply js_lt_spec in Hlt as (q & Hq & Hlt).
        destruct (Hall q Hq) as [Hmin _]. exfalso. exact (Qlt_not_le _ _ Hlt Hmin).
    + destruct (js_gt v max) eqn:Hgt; simpl.
      * split.
        -- split; [| reflexivity]. intros _.
           apply js_gt_spec in Hgt as (q & Hq & Hgt). exists q. tauto.
        -- split; [discriminate |]. intros Hall.
           apply js_gt_spec in Hgt as (q & Hq & Hgt).
           destruct (Hall q Hq) as [_ Hmax]. exfalso. exact (Qlt_not_le _ _ Hgt Hmax).
      * split.
        -- split; [discriminate |]. intros (q & Hq & [Hl | Hg]).
           ++ assert (js_lt v min = true) by (apply js_lt_spec; eauto). congruence.
           ++ assert (js_gt v max = true) by (apply js_gt_spec; eauto). congruence.
        -- split; [| reflexivity]. intros _ q Hq. split.
           ++ apply Qnot_lt_le. intros Hl.
              assert (js_lt v min = true) by (apply js_lt_spec; eauto). congruence.
           ++ apply Qnot_lt_le. intros Hg.
              assert (js_gt v max = true) by (apply js_gt_spec; eauto). congruence.
Qed.

End Pages.

(** ** The provider: what fetches and mutations do to the views *)

Lemma js_or_absorb (a b : value) :
  js_or (js_or (js_or (js_or a b) (VBool false)) b) (VBool false)
  = js_or (js_or a b) (VBool false).
Proof.
  destruct (truthy (js_or a b)) eqn:Ex.
  - rewrite (js_or_truthy_l (js_or a b) (VBool false)) by exact Ex.
    rewrite (js_or_truthy_l (js_or a b) b) by exact Ex.
    apply js_or_truthy_l, Ex.
  - assert (Eb : truthy b = false).
    { unfold js_or in Ex. destruct (truthy a) eqn:Ea; congruence. }
    rewrite (js_or_falsy_l (js_or a b) (VBool false)) by exact Ex.
    rewrite (js_or_falsy_l (VBool false) b) by reflexivity.
    apply js_or_falsy_l, Eb.
Qed.

Lemma filter_filter_comm {A} (f g : A → bool) (l : list A) :
  List.filter f (List.filter g l) = List.filter g (List.filter f l).
Proof.
  induction l as [| x l IH]; simpl; [reflexivity |].
  destruct (f x) eqn:Hf, (g x) eqn:Hg; simpl; rewrite ?Hf, ?Hg, IH; reflexivity.
Qed.

(** A fetch that succeeds replaces the alert list wholesale: whatever the
    Store held when the reply arrived, optimistic edits included, the list
    is the normalised payload; [loading] is cleared, [lastUpdated] is the
    time of the reply and [error] is left as it was. *)
Theorem fetch_success_replaces
    (m : machine) (i : nat) (c : caller) (data : value) (l : list obj) (now : time) :
  pending m !! i = Some (TFetch c) →
  normalize data = Some l →
  ∃ m', step (Reply i (Fulfilled data) now) m = Some m' ∧
        alerts (st m') = l ∧
        loading (st m') = false ∧
        lastUpdated (st m') = Some now ∧
        error (st m') = error (st m) ∧
        in_flight m' = in_flight m - 1.
Proof.
  intros Hi Hl. unfold step. rewrite Hi. eexists. split; [reflexivity |].
  simpl. unfold fetch_effects. rewrite Hl.
  assert (Hcount : length (List.filter is_fetch (delete i (pending m)))
                   = in_flight m - 1).
  { unfold in_flight. clear Hl. revert i Hi.
    induction (pending m) as [| t ts IH]; intros i Hi; [discriminate |].
    destruct i as [| i]; simpl in *.
    - injection Hi as ->. simpl. lia.
    - specialize (IH i Hi). destruct (is_fetch t); simpl; [| exact IH].
      rewrite IH.
      assert (0 < length (List.filter is_fetch ts)).
      { clear IH. revert i Hi. induction ts as [| t' ts IH']; intros i Hi;
          [discriminate |].
        destruct i as [| i]; simpl in *.
        - injection Hi as ->. simpl. lia.
        - specialize (IH' i Hi). destruct (is_fetch t'); simpl; lia. }
      lia. }
  destruct c; simpl; repeat split; try reflexivity; exact Hcount.
Qed.

Lemma fetch_success_replaces_witness :
  ∃ m', step (Reply 0 (Fulfilled scenario_payload) 7%Z) mounted = Some m' ∧
        length (alerts (st m')) = 2 ∧ in_flight m' = 0.
Proof.
  destruct (fetch_success_replaces mounted 0 Direct scenario_payload
              (default [] (normalize scenario_payload)) 7%Z)
    as (m' & Hstep & Halerts & _ & _ & _ & Hcount); [reflexivity | reflexivity |].
  exists m'. split; [exact Hstep |]. split; [rewrite Halerts; reflexivity | exact Hcount].
Defined.

Lemma filter_active_acknowledge (alertId : prim) (l : list obj) :
  List.filter is_active (acknowledge_one alertId <$> l)
  = List.filter (keep_on_dismiss alertId) (List.filter is_active l).
Proof.
  induction l as [| a l IH]; [reflexivity |].
  rewrite fmap_cons. cbn [List.filter]. rewrite IH.
  destruct (strict_eq (field a "id") alertId) eqn:Hid.
  - assert (Ha : acknowledge_one alertId a = <["is_acknowledged" := VBool true]> a).
    { unfold acknowledge_one. rewrite Hid. reflexivity. }
    assert (Hack : is_active (<["is_acknowledged" := VBool true]> a) = false).
    { unfold is_active, field. rewrite lookup_insert_eq. reflexivity. }
    assert (Hk : keep_on_dismiss alertId a = false).
    { unfold keep_on_dismiss. rewrite Hid. reflexivity. }
    rewrite Ha, Hack.
    destruct (is_active a); cbn [List.filter]; rewrite ?Hk; reflexivity.
  - assert (Ha : acknowledge_one alertId a = a).
    { unfold acknowledge_one. rewrite Hid. reflexivity. }
    assert (Hk : keep_on_dismiss alertId a = true).
    { unfold keep_on_dismiss. rewrite Hid. reflexivity. }
    rewrite Ha.
    destruct (is_active a); cbn [List.filter]; rewrite ?Hk; reflexivity.
Qed.

(** Acknowledging an id takes out of the active view exactly the alerts
    with that id, at once and in place: the view becomes what dismissing the
    id would leave of it, no alert is added to it and none is lost from the
    Store. *)
Theorem acknowledge_leaves_active_view (m : machine) (alertId : prim) :
  ∃ m', step (Acknowledge alertId) m = Some m' ∧
        activeAlerts (st m')
        = List.filter (keep_on_dismiss alertId) (activeAlerts (st m)) ∧
        (∀ a, a ∈ activeAlerts (st m') →
              a ∈ activeAlerts (st m) ∧ strict_eq (field a "id") alertId = false) ∧
        length (alerts (st m')) = length (alerts (st m)).
Proof.
  eexists. split; [reflexivity |].
  unfold activeAlerts; cbn [st alerts setAlerts].
  rewrite filter_active_acknowledge.
  split; [reflexivity |]. split.
  - intros a. rewrite elem_of_filter_bool.
    unfold keep_on_dismiss. rewrite negb_true_iff. tauto.
  - apply length_fmap.
Qed.

Lemma elem_of_dismissed_view (f : obj → bool) (alertId : prim) (l : list obj) (a : obj) :
  a ∈ List.filter f (List.filter (keep_on_dismiss alertId) l) ↔
  a ∈ List.filter f l ∧ strict_eq (field a "id") alertId = false.
Proof.
  rewrite !elem_of_filter_bool. unfold keep_on_dismiss.
  rewrite negb_true_iff. tauto.
Qed.

Lemma filter_dismissed_view (f : obj → bool) (alertId : prim) (l : list obj) :
  List.filter f (List.filter (keep_on_dismiss alertId) l)
  = List.filter (λ a, negb (strict_eq (field a "id") alertId)) (List.filter f l).
Proof. apply filter_filter_comm. Qed.

(** Dismissing an id removes from the Store, and from every derived view,
    exactly the alerts whose id is strictly equal to it: an alert is in the
    Store, or in a view, afterwards if and only if it was there before and
    has another id, and each view is the view of before without the alerts of
    that id, in the same order. *)
Theorem dismiss_leaves_views `{Runtime} (m : machine) (alertId : prim) :
  let other := λ a : obj, negb (strict_eq (field a "id") alertId) in
  ∃ m', step (Dismiss alertId) m = Some m' ∧
        (∀ a, a ∈ alerts (st m') ↔
              a ∈ alerts (st m) ∧ strict_eq (field a "id") alertId = false) ∧
        (∀ a, a ∈ activeAlerts (st m') ↔
              a ∈ activeAlerts (st m) ∧ strict_eq (field a "id") alertId = false) ∧
        (∀ a, a ∈ criticalAlerts (st m') ↔
              a ∈ criticalAlerts (st m) ∧ strict_eq (field a "id") alertId = false) ∧
        (∀ a, a ∈ highRiskAlerts (st m') ↔
              a ∈ highRiskAlerts (st m) ∧ strict_eq (field a "id") alertId = false) ∧
        (∀ a, a ∈ acknowledgedAlerts (st m') ↔
              a ∈ acknowledgedAlerts (st m) ∧
              strict_eq (field a "id") alertId = false) ∧
        alerts (st m') = List.filter other (alerts (st m)) ∧
        activeAlerts (st m') = List.filter other (activeAlerts (st m)) ∧
        criticalAlerts (st m') = List.filter other (criticalAlerts (st m)) ∧
        highRiskAlerts (st m') = List.filter other (highRiskAlerts (st m)) ∧
        acknowledgedAlerts (st m') = List.filter other (acknowledgedAlerts (st m)).
Proof.
  cbv zeta. eexists. split; [reflexivity |].
  unfold activeAlerts, criticalAlerts, highRiskAlerts, acknowledgedAlerts;
    cbn [st alerts setAlerts].
  split.
  { intros a. rewrite elem_of_filter_bool. unfold keep_on_dismiss.
    rewrite negb_true_iff. tauto. }
  repeat (split; [apply elem_of_dismissed_view |]).
  split; [reflexivity |].
  repeat split; apply filter_dismissed_view.
Qed.

(** Normalising is idempotent on objects: an alert of the Store, normalised
    again, is unchanged. *)
Theorem normalize_alert_idempotent (raw : obj) :
  ∃ o, normalize_alert (VObj raw) = Some o ∧ normalize_alert (VObj o) = Some o.
Proof.
  eexists. split; [reflexivity |].
  unfold normalize_alert; simpl. f_equal.
  set (I := js_or (field raw "alert_id") (field raw "id")).
  set (A := js_or (js_or (field raw "is_acknowledged") (field raw "acknowledged"))
                  (VBool false)).
  set (o := <["is_acknowledged" := A]> (<["id" := I]> raw)).
  assert (Haid : field o "alert_id" = field raw "alert_id").
  { unfold o, field. rewrite !lookup_insert_ne by discriminate. reflexivity. }
  assert (Hid : field o "id" = I).
  { unfold o, field. rewrite lookup_insert_ne by discriminate.
    rewrite lookup_insert_eq. reflexivity. }
  assert (Hia : field o "is_acknowledged" = A).
  { unfold o, field. rewrite lookup_insert_eq. reflexivity. }
  assert (Hack : field o "acknowledged" = field raw "acknowledged").
  { unfold o, field. rewrite !lookup_insert_ne by discriminate. reflexivity. }
  rewrite Haid, Hid, Hia, Hack.
  assert (HI : js_or (field raw "alert_id") I = I).
  { unfold I. destruct (truthy (field raw "alert_id")) eqn:E.
    - rewrite !js_or_truthy_l by exact E. reflexivity.
    - rewrite !js_or_falsy_l by exact E. reflexivity. }
  assert (HA : js_or (js_or A (field raw "acknowledged")) (VBool false) = A).
  { unfold A. apply js_or_absorb. }
  rewrite HI, HA.
  rewrite (insert_id o "id" I).
  - apply insert_id. unfold o. apply lookup_insert_eq.
  - unfold o. rewrite lookup_insert_ne by discriminate. apply lookup_insert_eq.
Qed.

(** ** The request interceptor *)

Lemma API_KEY_nonempty (env : option string) : API_KEY env ≠ EmptyString.
Proof.
  unfold API_KEY. destruct env as [k |]; [| discriminate].
  destruct (String.eqb k EmptyString) eqn:E; [discriminate |].
  apply String.eqb_neq, E.
Qed.

Lemma authorization_no_token (env : option string) :
  authorization None env = Some ("Bearer " ++ API_KEY env)%string ∧
  authorization (Some EmptyString) env = Some ("Bearer " ++ API_KEY env)%string.
Proof.
  pose proof (API_KEY_nonempty env) as Hkey. apply String.eqb_neq in Hkey.
  unfold authorization; simpl. rewrite Hkey. split; reflexivity.
Qed.

Lemma authorization_token (t : string) (env : option string) :
  t ≠ EmptyString → authorization (Some t) env = Some ("Bearer " ++ t)%string.
Proof.
  intros Ht. apply String.eqb_neq in Ht.
  unfold authorization; simpl. rewrite Ht. reflexivity.
Qed.

(** Every request carries an [Authorization] header with a non-empty
    credential: the stored token when there is one, else the API key, which
    is never empty since it defaults to a literal. *)
Theorem authorization_always_present (token env : option string) :
  ∃ credential : string,
    authorization token env = Some ("Bearer " ++ credential)%string ∧
    credential ≠ EmptyString ∧
    (∀ t, token = Some t → t ≠ EmptyString → credential = t) ∧
    (token = None ∨ token = Some EmptyString → credential = API_KEY env) ∧
    (∀ k, env = Some k → k ≠ EmptyString → API_KEY env = k) ∧
    (env = None ∨ env = Some EmptyString →
     API_KEY env = "secure-api-key-change-in-production"%string).
Proof.
  assert (Henv : (∀ k, env = Some k → k ≠ EmptyString → API_KEY env = k) ∧
                 (env = None ∨ env = Some EmptyString →
                  API_KEY env = "secure-api-key-change-in-production"%string)).
  { split.
    - intros k -> Hk. unfold API_KEY. apply String.eqb_neq in Hk.
      rewrite Hk. reflexivity.
    - intros [-> | ->]; reflexivity. }
  destruct Henv as [Henv Hdefault].
  destruct (authorization_no_token env) as [Hnone Hempty].
  pose proof (API_KEY_nonempty env) as Hkey.
  destruct token as [t |].
  - destruct (String.eqb t EmptyString) eqn:E.
    + apply String.eqb_eq in E. subst t. exists (API_KEY env).
      repeat split; try assumption; try reflexivity.
      intros t [= <-] Ht. contradiction.
    + apply String.eqb_neq in E. exists t.
      repeat split; try assumption; try reflexivity.
      * apply authorization_token, E.
      * intros t' [= <-] _. reflexivity.
      * intros [Hn | [= Hn]]; [discriminate | contradiction].
  - exists (API_KEY env).
    repeat split; try assumption; try reflexivity. discriminate.
Qed.

(** ** The authentication provider *)

Section AuthProperties.
Import Auth.
Context `{Strings}.

Lemma pending_exec (es : list effect) (m : machine) :
  pending (exec es m) = pending m.
Proof.
  revert m. induction es as [| e es IH]; intros m; [reflexivity |].
  unfold exec in *; simpl. rewrite IH. destruct e; reflexivity.
Qed.

Lemma trace_exec (es : list effect) (m : machine) :
  trace (exec es m) = trace m ++ es.
Proof.
  revert m. induction es as [| e es IH]; intros m.
  - symmetry. apply app_nil_r.
  - unfold exec in *; simpl. rewrite IH.
    destruct e; simpl; rewrite <- app_assoc; reflexivity.
Qed.

(** A call that suspends, followed by the reply to it. *)
Lemma run_suspend (e : event) (es : list effect) (t : task) (r : reply) (m : machine) :
  step e m = Some (suspend es t m) →
  run [e; Reply (length (pending m)) r] m
  = Some (exec (settle t r)
            (Machine (st (exec es m)) (token (exec es m)) (pending m)
                     (trace (exec es m)))).
Proof.
  intros He. unfold run. rewrite He. unfold suspend, step; cbn [pending st token trace].
  rewrite pending_exec.
  rewrite list_lookup_middle by reflexivity.
  rewrite delete_middle, app_nil_r. reflexivity.
Qed.

Lemma thrown_message (msg fallback : string) :
  msg ≠ EmptyString → error_message (thrown msg) fallback = VStr msg.
Proof.
  intros Hmsg. unfold error_message, response_message, thrown, field.
  rewrite lookup_singleton_ne by discriminate. simpl.
  rewrite lookup_singleton_eq. simpl.
  unfold js_or; simpl. apply String.eqb_neq in Hmsg. rewrite Hmsg. reflexivity.
Qed.

Lemma truthy_error_message (err : obj) (fallback : string) :
  fallback ≠ EmptyString → truthy (error_message err fallback) = true.
Proof.
  intros Hf. unfold error_message.
  destruct (truthy (js_or (response_message err) (field err "message"))) eqn:E.
  - rewrite js_or_truthy_l by exact E. exact E.
  - rewrite js_or_falsy_l by exact E. simpl.
    apply String.eqb_neq in Hf. rewrite Hf. reflexivity.
Qed.

Lemma run_session_ok (m : machine) (c data : value) (signup : bool) :
  has_session data = true →
  run [if signup then DoSignup c else DoLogin c;
       Reply (length (pending m)) (Fulfilled data)] m
  = Some (Machine (Store (get data "user") false VNull)
                  (Some (to_string (get data "token")))
                  (pending m)
                  (trace m ++
                   [ESetLoading true; ESetError VNull;
                    ECall (if signup then Signup c else Login c);
                    ESetItem (to_string (get data "token"));
                    ESetUser (get data "user");
                    ESetLoading false;
                    EReturn (VObj (<["success" := VBool true]>
                                   {["user" := get data "user"]}))])).
Proof.
  intros Hok.
  destruct signup; (erewrite run_suspend; [| reflexivity]);
    cbn [settle session_settle]; rewrite Hok; simpl;
    rewrite <- !app_assoc; reflexivity.
Qed.

Lemma run_logout (m : machine) (r : reply) :
  run [DoLogout; Reply (length (pending m)) r] m
  = Some (Machine (Store VNull (loading (st m)) VNull) None (pending m)
                  (trace m ++ [ECall Logout; ERemoveItem; ESetUser VNull;
                               ESetError VNull; EReturn VUndefined])).
Proof.
  erewrite run_suspend; [| reflexivity]. simpl.
  rewrite <- !app_assoc. reflexivity.
Qed.

(** A successful login or signup stores the token of the response, sets the
    user, leaves no error and clears [loading]; the provider is then
    authenticated and the caller gets [{success: true, user}]. *)
Theorem session_established (m : machine) (c data : value) (signup : bool) :
  has_session data = true →
  ∃ m',
    run [if signup then DoSignup c else DoLogin c;
         Reply (length (pending m)) (Fulfilled data)] m = Some m' ∧
    token m' = Some (to_string (get data "token")) ∧
    user (st m') = get data "user" ∧
    isAuthenticated (st m') = true ∧
    error (st m') = VNull ∧
    loading (st m') = false ∧
    pending m' = pending m ∧
    trace m' = trace m ++
               [ESetLoading true; ESetError VNull;
                ECall (if signup then Signup c else Login c);
                ESetItem (to_string (get data "token")); ESetUser (get data "user");
                ESetLoading false;
                EReturn (VObj (<["success" := VBool true]>
                               {["user" := get data "user"]}))].
Proof.
  intros Hok.
  assert (Huser : truthy (get data "user") = true).
  { unfold has_session in Hok. apply andb_true_iff in Hok. tauto. }
  eexists. split; [apply run_session_ok, Hok |].
  unfold isAuthenticated; simpl. rewrite Huser. repeat split; reflexivity.
Qed.

(** The error a failed login or signup handles in its [catch] block. *)
Lemma run_session_fail (m : machine) (c : value) (r : reply) (signup : bool) :
  session_fails r = true →
  let err := match r with
             | Fulfilled _ => thrown "Invalid response from server"
             | Rejected e => e
             end in
  let msg := error_message err (if signup then "Signup failed" else "Login failed") in
  run [if signup then DoSignup c else DoLogin c;
       Reply (length (pending m)) r] m
  = Some (Machine (Store (user (st m)) false msg) (token m) (pending m)
                  ((trace m ++
                    [ESetLoading true; ESetError VNull;
                     ECall (if signup then Signup c else Login c);
                     ESetError msg; ESetLoading false]) ++
                   [EReturn (VObj (<["success" := VBool false]>
                                   {["error" := msg]}))])).
Proof.
  intros Hfail. cbv zeta.
  destruct signup, r as [data | e]; simpl in Hfail;
    try apply negb_true_iff in Hfail;
    (erewrite run_suspend; [| reflexivity]);
    cbn [settle session_settle]; rewrite ?Hfail; simpl;
    rewrite <- !app_assoc; reflexivity.
Qed.

(** A login or signup that fails changes neither the stored token nor the
    user: it records a non-empty error message, clears [loading] and returns
    [{success: false, error}] with that message, which is 'Invalid response
    from server' when the call succeeded without a token or a user. *)
Theorem session_failure_atomic (m : machine) (c : value) (r : reply) (signup : bool) :
  session_fails r = true →
  ∃ m' msg,
    run [if signup then DoSignup c else DoLogin c;
         Reply (length (pending m)) r] m = Some m' ∧
    token m' = token m ∧
    user (st m') = user (st m) ∧
    error (st m') = msg ∧
    truthy msg = true ∧
    loading (st m') = false ∧
    pending m' = pending m ∧
    last (trace m')
    = Some (EReturn (VObj (<["success" := VBool false]> {["error" := msg]}))) ∧
    (∀ data, r = Fulfilled data → msg = VStr "Invalid response from server") ∧
    (∀ err, r = Rejected err →
            msg = error_message err (if signup then "Signup failed" else "Login failed")).
Proof.
  intros Hfail. do 2 eexists. split; [apply run_session_fail, Hfail |].
  simpl. repeat split; try reflexivity.
  - apply truthy_error_message. destruct signup; discriminate.
  - apply last_snoc.
  - intros data ->. apply thrown_message. discriminate.
  - intros err ->. reflexivity.
Qed.

(** The message of a failed operation: the message of the server response
    when it has a truthy one, else the message of the error when it is
    truthy, else the fallback; it is never empty.  The server message is
    read at [error.response.data.message], and a missing [response] or
    [data] does not throw. *)
Theorem error_message_priority (err : obj) (fallback : string) :
  fallback ≠ EmptyString →
  let msg := error_message err fallback in
  truthy msg = true ∧
  (truthy (response_message err) = true → msg = response_message err) ∧
  (truthy (response_message err) = false →
   truthy (field err "message") = true → msg = field err "message") ∧
  (truthy (response_message err) = false →
   truthy (field err "message") = false → msg = VStr fallback) ∧
  (∀ resp d : obj,
     err !! "response" = Some (VObj resp) → resp !! "data" = Some (VObj d) →
     response_message err = field d "message") ∧
  (err !! "response" = None → response_message err = VUndefined).
Proof.
  intros Hf. cbv zeta. split; [apply truthy_error_message, Hf |].
  unfold error_message. repeat split.
  - intros Hr. rewrite (js_or_truthy_l (response_message err)) by exact Hr.
    apply js_or_truthy_l, Hr.
  - intros Hr Hm. rewrite (js_or_falsy_l (response_message err)) by exact Hr.
    apply js_or_truthy_l, Hm.
  - intros Hr Hm. rewrite (js_or_falsy_l (response_message err)) by exact Hr.
    apply js_or_falsy_l, Hm.
  - intros resp d Hresp Hd. unfold response_message, field.
    rewrite Hresp; simpl. unfold field. rewrite Hd; simpl. reflexivity.
  - intros Hnone. unfold response_message, field. rewrite Hnone. reflexivity.
Qed.

(** Logging out always clears the local session, whether the server call is
    fulfilled or rejected: the token is removed, the user and the error are
    reset and the provider is no longer authenticated.  [loading] is not
    touched. *)
Theorem logout_always_clears (m : machine) (r : reply) :
  ∃ m',
    run [DoLogout; Reply (length (pending m)) r] m = Some m' ∧
    token m' = None ∧
    user (st m') = VNull ∧
    error (st m') = VNull ∧
    isAuthenticated (st m') = false ∧
    loading (st m') = loading (st m) ∧
    pending m' = pending m ∧
    trace m' = trace m ++ [ECall Logout; ERemoveItem; ESetUser VNull;
                           ESetError VNull; EReturn VUndefined].
Proof.
  eexists. split; [apply run_logout |].
  simpl. repeat split; reflexivity.
Qed.

(** Without a stored token (none, or an empty one) [checkAuthStatus] makes
    no network call: it only raises and clears [loading]. *)
Theorem check_without_token (m : machine) :
  has_token m = false →
  ∃ m', step CheckAuthStatus m = Some m' ∧
        trace m' = trace m ++ [ESetLoading true; ESetLoading false;
                               EReturn VUndefined] ∧
        pending m' = pending m ∧
        token m' = token m ∧
        user (st m') = user (st m) ∧
        error (st m') = error (st m) ∧
        loading (st m') = false.
Proof.
  intros Hno. unfold step. rewrite Hno. eexists. split; [reflexivity |].
  simpl. repeat split; try reflexivity. rewrite <- !app_assoc. reflexivity.
Qed.

(** With a stored token [checkAuthStatus] verifies it and always clears
    [loading].  A response with a user sets the user and keeps the token; a
    rejection removes the token and resets the user; a response without a
    user removes the token but leaves the user as it was. *)
Theorem check_with_token (m : machine) (r : reply) :
  has_token m = true →
  ∃ m',
    run [CheckAuthStatus; Reply (length (pending m)) r] m = Some m' ∧
    loading (st m') = false ∧
    error (st m') = error (st m) ∧
    pending m' = pending m ∧
    match r with
    | Fulfilled data =>
        if truthy data && truthy (get data "user")
        then user (st m') = get data "user" ∧ token m' = token m
        else user (st m') = user (st m) ∧ token m' = None
    | Rejected _ => user (st m') = VNull ∧ token m' = None
    end.
Proof.
  intros Htok. eexists. split.
  - erewrite run_suspend; [reflexivity |]. unfold step. rewrite Htok. reflexivity.
  - destruct r as [data | err]; simpl.
    + destruct (truthy data && truthy (get data "user")); simpl;
        repeat split; reflexivity.
    + repeat split; reflexivity.
Qed.

(** Changing the password never changes the user or the stored token, and
    updating the profile never changes the stored token, whatever the
    reply; both clear [loading] when they are done. *)
Theorem profile_operations_frame (m : machine) (d : value) (r : reply) :
  (∃ m', run [DoChangePassword d; Reply (length (pending m)) r] m = Some m' ∧
         user (st m') = user (st m) ∧ token m' = token m ∧
         loading (st m') = false ∧ pending m' = pending m) ∧
  (∃ m', run [DoUpdateProfile d; Reply (length (pending m)) r] m = Some m' ∧
         token m' = token m ∧
         loading (st m') = false ∧ pending m' = pending m).
Proof.
  split; (eexists; split; [erewrite run_suspend; [reflexivity | reflexivity] |]).
  - destruct r as [data | err]; simpl.
    + destruct (truthy data && truthy (get data "success")); simpl;
        repeat split; reflexivity.
    + repeat split; reflexivity.
  - destruct r as [data | err]; simpl.
    + destruct (truthy data && truthy (get data "user")); simpl;
        repeat split; reflexivity.
    + repeat split; reflexivity.
Qed.

(** The token round trip through [localStorage]: after a successful login
    whose token is a non-empty string, requests are sent with that token;
    after a logout they are sent with the API key again. *)
Theorem token_round_trip
    (m : machine) (c data : value) (t : string) (r : reply) (env : option string) :
  has_session data = true →
  get data "token" = VStr t →
  ∃ m1 m2,
    run [DoLogin c; Reply (length (pending m)) (Fulfilled data)] m = Some m1 ∧
    authorization (token m1) env = Some ("Bearer " ++ t)%string ∧
    run [DoLogout; Reply (length (pending m1)) r] m1 = Some m2 ∧
    authorization (token m2) env = Some ("Bearer " ++ API_KEY env)%string.
Proof.
  intros Hok Ht.
  assert (Hne : t ≠ EmptyString).
  { intros ->. unfold has_session in Hok. rewrite Ht in Hok.
    simpl in Hok. rewrite andb_false_r in Hok. discriminate. }
  do 2 eexists. split; [apply (run_session_ok m c data false Hok) |].
  split; [| split; [apply run_logout |]]; simpl.
  - rewrite Ht; simpl. apply authorization_token, Hne.
  - apply authorization_no_token.
Qed.

End AuthProperties.

(** ** The dashboard loader *)

Section DashboardProperties.
Import Dashboard.

(** Loading the dashboard always ends with [loading] cleared and the stats
    set to the data of the stats response when that request is fulfilled, to
    [null] when it failed.  A failed patients request, a falsy payload or an array never
    raise an error: the recent patients are the first five elements, none
    for the first two.  A payload that is an object has no [slice]: the
    error 'Failed to load dashboard data' is shown and the recent patients
    are left as they were, although the stats have been written. *)
Theorem dashboard_load (s : store) (rs rp : reply) :
  let s' := exec (loadDashboardData rs rp) s in
  loading s' = false ∧
  stats s' = stats_data rs ∧
  (∀ d, rs = Fulfilled d → stats s' = d) ∧
  (rs = Rejected → stats s' = VNull) ∧
  (rp = Rejected → recentPatients s' = VArr [] ∧ error s' = None) ∧
  (∀ d, rp = Fulfilled d → truthy d = false →
        recentPatients s' = VArr [] ∧ error s' = None) ∧
  (∀ l, rp = Fulfilled (VArr l) →
        recentPatients s' = VArr (take 5 l) ∧ length (take 5 l) ≤ 5 ∧
        error s' = None) ∧
  (∀ o, rp = Fulfilled (VObj o) →
        recentPatients s' = recentPatients s ∧
        error s' = Some "Failed to load dashboard data"%string).
Proof.
  cbv zeta. unfold loadDashboardData.
  assert (Hcases :
            ∀ x, exec ([ESetLoading true; ESetError None; ECall "/stats";
                        ECall "/patients"; ESetStats (stats_data rs)]
                       ++ match slice_0_5 x with
                          | Some recent => [ESetRecentPatients recent]
                          | None => [ESetError (Some "Failed to load dashboard data"%string)]
                          end ++ [ESetLoading false]) s
                 = match slice_0_5 x with
                   | Some recent => Store (stats_data rs) recent false None
                   | None => Store (stats_data rs) (recentPatients s) false
                                   (Some "Failed to load dashboard data"%string)
                   end).
  { intros x. destruct (slice_0_5 x); reflexivity. }
  rewrite Hcases.
  split; [destruct (slice_0_5 _); reflexivity |].
  split; [destruct (slice_0_5 _); reflexivity |].
  split; [intros d ->; destruct (slice_0_5 _); reflexivity |].
  split; [intros ->; destruct (slice_0_5 _); reflexivity |].
  split; [intros ->; split; reflexivity |].
  split; [intros d -> Hd; rewrite js_or_falsy_l by exact Hd; split; reflexivity |].
  split.
  - intros l ->. unfold js_or; simpl. repeat split. rewrite length_take. lia.
  - intros o ->. unfold js_or; simpl. split; reflexivity.
Qed.

End DashboardProperties.

(** ** Instances of the statements with a precondition *)

Lemma status_filter_numeric_witness :
  @status_filter no_coercion "critical" overlap_alert
  = @is_critical no_coercion overlap_alert ∧
  @status_filter no_coercion "high" overlap_alert
  = @is_high no_coercion overlap_alert.
Proof.
  apply (@status_filter_numeric no_coercion overlap_alert lit_0_9). reflexivity.
Defined.

Lemma status_filter_without_score_witness :
  @status_filter no_coercion "critical" (<["severity" := VStr "low"]> ∅) = true ∧
  @is_critical no_coercion (<["severity" := VStr "low"]> ∅) = false.
Proof.
  destruct (@status_filter_without_score no_coercion
              (<["severity" := VStr "low"]> ∅) "low") as (Hc & _ & _ & Hnot & _).
  - reflexivity.
  - split; [exact Hc |]. apply Hnot; [reflexivity | discriminate].
Defined.

Lemma badge_ignores_severity_tag_witness :
  @getRiskLevelText no_coercion
    (field (<["severity" := VStr "critical"]> (<["risk_score" := VNum (1 # 10)]> ∅))
           "risk_score")
  = "Low"%string.
Proof.
  apply (@badge_ignores_severity_tag no_coercion
           (<["severity" := VStr "critical"]> (<["risk_score" := VNum (1 # 10)]> ∅))).
  - reflexivity.
  - exists (1 # 10). split; reflexivity.
Defined.

Lemma session_established_witness :
  ∃ m', @Auth.run opaque_strings
          [Auth.DoLogin VNull;
           Auth.Reply 0 (Auth.Fulfilled
                           (VObj (<["token" := VStr "abc"]>
                                  {["user" := VObj {["name" := VStr "Ann"]}]})))]
          (Auth.init None) = Some m' ∧
        Auth.token m' = Some "abc"%string.
Proof.
  destruct (@session_established opaque_strings (Auth.init None) VNull
              (VObj (<["token" := VStr "abc"]>
                     {["user" := VObj {["name" := VStr "Ann"]}]})) false)
    as (m' & Hrun & Htok & _); [reflexivity |].
  exists m'. split; [exact Hrun | exact Htok].
Defined.

Lemma session_failure_atomic_witness :
  ∃ m', @Auth.run opaque_strings
          [Auth.DoLogin VNull; Auth.Reply 0 (Auth.Fulfilled (VObj ∅))]
          signed_in = Some m' ∧
        Auth.token m' = Some "t0"%string ∧
        Auth.error (Auth.st m') = VStr "Invalid response from server".
Proof.
  destruct (@session_failure_atomic opaque_strings signed_in VNull
              (Auth.Fulfilled (VObj ∅)) false)
    as (m' & msg & Hrun & Htok & _ & Herr & _ & _ & _ & _ & Hmsg & _);
    [reflexivity |].
  exists m'. split; [exact Hrun |]. split; [exact Htok |].
  rewrite Herr. apply (Hmsg (VObj ∅)). reflexivity.
Defined.

Lemma error_message_priority_witness :
  Auth.error_message
    (<["message" := VStr "Request failed with status code 401"]>
     {["response" := VObj {["data" := VObj {["message" := VStr "Bad password"]}]}]})
    "Login failed"
  = VStr "Bad password".
Proof.
  destruct (error_message_priority
              (<["message" := VStr "Request failed with status code 401"]>
               {["response" :=
                   VObj {["data" := VObj {["message" := VStr "Bad password"]}]}]})
              "Login failed") as (_ & Hserver & _); [discriminate |].
  rewrite Hserver; reflexivity.
Defined.

Lemma check_without_token_witness :
  ∃ m', @Auth.step opaque_strings Auth.CheckAuthStatus (Auth.init None) = Some m' ∧
        Auth.pending m' = [] ∧ Auth.loading (Auth.st m') = false.
Proof.
  destruct (@check_without_token opaque_strings (Auth.init None))
    as (m' & Hstep & _ & Hpend & _ & _ & _ & Hload); [reflexivity |].
  exists m'. split; [exact Hstep |]. split; [exact Hpend | exact Hload].
Defined.

Lemma check_with_token_witness :
  ∃ m', @Auth.run opaque_strings
          [Auth.CheckAuthStatus; Auth.Reply 0 (Auth.Fulfilled (VObj ∅))]
          signed_in = Some m' ∧
        Auth.token m' = None ∧ Auth.loading (Auth.st m') = false.
Proof.
  destruct (@check_with_token opaque_strings signed_in (Auth.Fulfilled (VObj ∅)))
    as (m' & Hrun & Hload & _ & _ & _ & Htok); [reflexivity |].
  exists m'. split; [exact Hrun |]. split; [exact Htok | exact Hload].
Defined.

Lemma token_round_trip_witness :
  ∃ m1, @Auth.run opaque_strings
          [Auth.DoLogin VNull;
           Auth.Reply 0 (Auth.Fulfilled
                           (VObj (<["token" := VStr "abc"]>
                                  {["user" := VObj {["name" := VStr "Ann"]}]})))]
          (Auth.init None) = Some m1 ∧
        authorization (Auth.token m1) None = Some "Bearer abc"%string.
Proof.
  destruct (@token_round_trip opaque_strings (Auth.init None) VNull
              (VObj (<["token" := VStr "abc"]>
                     {["user" := VObj {["name" := VStr "Ann"]}]}))
              "abc" (Auth.Rejected ∅) None)
    as (m1 & m2 & Hrun & Hauth & _); [reflexivity | reflexivity |].
  exists m1. split; [exact Hrun | exact Hauth].
Defined.
